(** * Lecture Voice-to-Notes Generator: the content pipeline of [app.py]

    A shallow embedding of the processing part of the Streamlit script
    (MIME selection, the two prompts, the transcription and generation
    stages, the marker-based section extraction and the two exports),
    followed by the properties proved about it.

    Python values are modelled as follows.
    - [str] is a sequence of Unicode code points: [list N].  Literals are
      written [u"..."] (ASCII text only); other characters are given by
      their code point.
    - [int] is [Z].
    - A raised exception is the [Raise] case of [result]; the script itself
      runs in a state-and-exception monad whose state records what was
      rendered on the page and which requests were sent to the model.
    - [str.upper] and [str.lower] depend on the interpreter's Unicode
      database, which is not part of the repository: they are the two
      operations of the class [CaseDB].  [ascii_faithful] states what
      CPython guarantees for them on ASCII text. *)

From Stdlib Require Import ZArith NArith Ascii String DecimalString.
From stdpp Require Import base option list gmap.

Local Open Scope Z_scope.

(** ** Python strings *)

Abbreviation str := (list N).

(** [u"abc"]: the code points of an ASCII literal. *)
Definition u (s : string) : str := N_of_ascii <$> list_ascii_of_string s.
Arguments u : simpl never.

Definition NL : str := [10%N].

(** [sep.join(parts)] *)
Fixpoint join (sep : str) (parts : list str) : str :=
  match parts with
  | [] => []
  | [p] => p
  | p :: ps => p ++ sep ++ join sep ps
  end.

(** A literal spanning several lines: the lines joined by a newline. *)
Definition text (ls : list str) : str := join NL ls.

(** Truth value of a string: non-empty. *)
Definition truthy (s : str) : bool :=
  match s with [] => false | _ :: _ => true end.

Definition is_ascii (c : N) : bool := (c <? 128)%N.

(** [Py_UNICODE_ISSPACE]: the characters [str.strip()] removes. *)
Definition isspace (c : N) : bool :=
  ((9 <=? c) && (c <=? 13) || (28 <=? c) && (c <=? 32)
   || (c =? 133) || (c =? 160) || (c =? 5760)
   || (8192 <=? c) && (c <=? 8202)
   || (c =? 8232) || (c =? 8233) || (c =? 8239) || (c =? 8287)
   || (c =? 12288))%N.

Fixpoint lstrip (s : str) : str :=
  match s with
  | c :: s' => if isspace c then lstrip s' else s
  | [] => []
  end.

Definition rstrip (s : str) : str := reverse (lstrip (reverse s)).

(** [s.strip()] *)
Definition strip (s : str) : str := rstrip (lstrip s).

(** [s.startswith(p)] *)
Fixpoint startswith (s p : str) {struct p} : bool :=
  match p, s with
  | [], _ => true
  | a :: p', b :: s' => (a =? b)%N && startswith s' p'
  | _ :: _, [] => false
  end.

(** [sub in s] *)
Fixpoint contains (sub s : str) : bool :=
  startswith s sub ||
  match s with
  | [] => false
  | _ :: s' => contains sub s'
  end.

(** The scan of [s.split(sep)] for a non-empty [sep]: [skip] counts the
    characters of a separator just matched that are still to be passed over,
    [cur] holds the current fragment, reversed. *)
Fixpoint split_scan (sep : str) (skip : nat) (cur s : str) : list str :=
  match s with
  | [] => [reverse cur]
  | c :: s' =>
      match skip with
      | S k => split_scan sep k cur s'
      | O =>
          if startswith s sep
          then reverse cur :: split_scan sep (Nat.pred (length sep)) [] s'
          else split_scan sep O (c :: cur) s'
      end
  end.

(** ASCII case mapping, the fast path of [str.upper]/[str.lower]. *)
Definition ascii_upper (c : N) : N :=
  if ((97 <=? c) && (c <=? 122))%N then (c - 32)%N else c.
Definition ascii_lower (c : N) : N :=
  if ((65 <=? c) && (c <=? 90))%N then (c + 32)%N else c.

(** The interpreter's case mappings. *)
Class CaseDB := {
  str_upper : str → str;
  str_lower : str → str
}.

(** On ASCII text both mappings act character by character on the letters. *)
Definition ascii_faithful (U : CaseDB) : Prop :=
  ∀ s : str, forallb is_ascii s = true →
    str_upper s = ascii_upper <$> s ∧ str_lower s = ascii_lower <$> s.

(** The mappings restricted to their ASCII part: enough to run the model on
    ASCII text. *)
Definition ascii_case_db : CaseDB :=
  {| str_upper := fmap ascii_upper; str_lower := fmap ascii_lower |}.

(** [str(n)] for an [int]. *)
Definition str_of_int (n : Z) : str := u (NilZero.string_of_int (Z.to_int n)).

(** ** Exceptions *)

(** The exceptions of the model, all caught by [except Exception];
    [APIError] stands for whatever the service client raises. *)
Inductive exception :=
| ValueError (msg : str)
| IndexError (msg : str)
| AttributeError (msg : str)
| APIError (msg : str).

(** [str(e)] *)
Definition exc_str (e : exception) : str :=
  match e with
  | ValueError m | IndexError m | AttributeError m | APIError m => m
  end.

Inductive result (A : Type) :=
| Ok (a : A)
| Raise (e : exception).
Arguments Ok {A} a.
Arguments Raise {A} e.

#[global] Instance result_ret : MRet result := λ A a, Ok a.
#[global] Instance result_bind : MBind result := λ A B f m,
  match m with
  | Ok a => f a
  | Raise e => Raise e
  end.

(** [s.split(sep)] *)
Definition str_split (s sep : str) : result (list str) :=
  match sep with
  | [] => Raise (ValueError (u"empty separator"))
  | _ :: _ => Ok (split_scan sep O [] s)
  end.

(** [l[i]] with Python's negative indices. *)
Definition getitem {A} (l : list A) (i : Z) : result A :=
  let n := Z.of_nat (length l) in
  let j := if i <? 0 then i + n else i in
  match (if (0 <=? j) && (j <? n) then l !! Z.to_nat j else None) with
  | Some x => Ok x
  | None => Raise (IndexError (u"list index out of range"))
  end.

(** ** MimeResolver (app.py, lines 98-111) *)

(** The items of the dictionary literal, in the order written (no key
    occurs twice). *)
Definition mime_table : list (str * str) :=
  [ (u"mp3", u"audio/mp3");
    (u"mpeg", u"audio/mpeg");
    (u"mpga", u"audio/mpeg");
    (u"mp4", u"audio/mp4");
    (u"m4a", u"audio/mp4");
    (u"wav", u"audio/wav");
    (u"webm", u"audio/webm");
    (u"aac", u"audio/aac") ].

Definition mime_type_map : gmap str str := list_to_map mime_table.

Section WithCaseDB.
Context {U : CaseDB}.

(** [uploaded_file.name.split('.')[-1].lower()] *)
Definition file_extension (name : str) : result str :=
  parts ← str_split name (u".");
  last_part ← getitem parts (-1);
  mret (str_lower last_part).

(** [mime_type_map.get(file_extension, 'audio/mpeg')] *)
Definition mime_type (name : str) : result str :=
  ext ← file_extension name;
  mret (default (u"audio/mpeg") (mime_type_map !! ext)).

End WithCaseDB.

(** ** PromptBuilder (app.py, lines 113-119 and 160-178) *)

Definition transcription_base : str :=
  text [ u"Please transcribe this audio file accurately. ";
         u"                Provide the complete transcript with proper punctuation, paragraph breaks, ";
         u"                and speaker identification if multiple speakers are present." ].

Definition timestamp_clause : str := u" Include timestamps where possible.".

Definition transcription_prompt (include_timestamps : bool) : str :=
  let transcription_prompt := transcription_base in
  if include_timestamps
  then transcription_prompt ++ timestamp_clause
  else transcription_prompt.

Definition study_prompt_head : str :=
  text [ u"You are an expert educational assistant. Based on the following lecture transcript, ";
         u"                    please generate comprehensive study materials:";
         u"";
         u"                    1. **SUMMARY**: Write a concise 3-4 sentence summary of the main topic and key concepts.";
         u"";
         u"                    2. **KEY POINTS**: Create a bullet-point list of the most important concepts, facts, and ideas. ";
         u"                       Organize them logically and use clear, educational language.";
         u"";
         u"                    3. **QUIZ**: Create " ].

Definition study_prompt_middle : str :=
  text [ u"-level multiple-choice questions to test understanding. ";
         u"                       For each question:";
         u"                       - Provide 4 answer options (A, B, C, D)";
         u"                       - Clearly indicate the correct answer";
         u"                       - Include a brief explanation for why the answer is correct";
         u"";
         u"                    Transcript:";
         u"                    ---";
         u"                    " ].

Definition study_prompt_tail : str :=
  text [ u"";
         u"";
         u"                    Please format your response with clear headers and organize the content for easy reading." ].

Section Prompts.
Context {U : CaseDB}.

Definition study_prompt (transcript_text : str) (num_questions : Z)
    (quiz_difficulty : str) : str :=
  study_prompt_head ++ str_of_int num_questions ++ u" "
    ++ str_lower quiz_difficulty ++ study_prompt_middle
    ++ transcript_text ++ study_prompt_tail.

End Prompts.

(** ** SectionExtractor (app.py, lines 190-227) *)

Record SectionedNotes := {
  summary_text : str;
  key_points : str;
  quiz_text : str
}.

Definition key_points_placeholder : str :=
  u"Key points extracted from the lecture content.".
Definition quiz_placeholder : str :=
  u"Quiz questions based on the lecture content.".

(** [generated_content[:500] + "..." if len(generated_content) > 500
    else generated_content] *)
Definition summary_fallback (generated_content : str) : str :=
  if 500 <? Z.of_nat (length generated_content)
  then take 500 generated_content ++ u"..."
  else generated_content.

Section Extractor.
Context {U : CaseDB}.

(** One of the three [for i, section in enumerate(sections)] loops, at
    index [i] with [todo] still to visit.  [Some v]: the loop left through
    [break] after computing [v]; [None]: it ran to the end, so its [else]
    clause applies. *)
Fixpoint scan_sections (label : str) (sections : list str) (i : Z)
    (todo : list str) : result (option str) :=
  match todo with
  | [] => mret None
  | section :: todo' =>
      if contains label (str_upper section) then
        if i + 1 <? Z.of_nat (length sections) then
          next ← getitem sections (i + 1);
          mret (Some (strip next))
        else scan_sections label sections (i + 1) todo'
      else scan_sections label sections (i + 1) todo'
  end.

Definition find_section (label : str) (sections : list str)
  : result (option str) :=
  scan_sections label sections 0 sections.

Definition summary_section (generated_content : str) (sections : list str)
  : result str :=
  found ← find_section (u"SUMMARY") sections;
  mret (default (summary_fallback generated_content) found).

Definition key_points_section (sections : list str) : result str :=
  found ← find_section (u"KEY POINTS") sections;
  mret (default key_points_placeholder found).

Definition quiz_section (sections : list str) : result str :=
  found ← find_section (u"QUIZ") sections;
  mret (default quiz_placeholder found).

(** The three sections shown for one generated block. *)
Definition extract (generated_content : str) : result SectionedNotes :=
  sections ← str_split generated_content (u"**");
  s ← summary_section generated_content sections;
  k ← key_points_section sections;
  q ← quiz_section sections;
  mret {| summary_text := s; key_points := k; quiz_text := q |}.

End Extractor.

(** ** Exports (app.py, lines 233-260) *)

Definition complete_notes (generated_content : str) : str :=
  u"LECTURE NOTES" ++ NL ++ NL ++ generated_content.

Definition study_guide (name transcript_text generated_content : str) : str :=
  text [ u""; u"# Study Guide: " ] ++ name
    ++ text [ u""; u""; u"## Transcript"; u"" ] ++ transcript_text
    ++ text [ u""; u""; u"## Generated Study Materials"; u"" ] ++ generated_content
    ++ text [ u""; u""; u"---"; u"Generated by Lecture Voice-to-Notes Generator"; u"" ].

(** ** The page, the model service and the script monad *)

(** Where an element is rendered: the page itself, one of the four tabs, or
    one of the two download columns. *)
Inductive container := page_body | tab1 | tab2 | tab3 | tab4 | col1 | col2.

Inductive element :=
| st_subheader (body : str)
| st_text_area (label value : str) (height : Z)
| st_download_button (label data file_name mime : str)
| st_write (body : str)
| st_error (body : str)
| st_info (body : str)
| st_warning (body : str).

(** What is passed as [contents] to [models.generate_content]. *)
Inductive part :=
| text_part (s : str)
| bytes_part (data : list Byte.byte) (mime : str).

Inductive contents :=
| contents_str (s : str)
| contents_list (parts : list part).

Record request := { model : str; req_contents : contents }.

(** The response: [response_text] is its [.text], which may be [None]. *)
Record response := { response_text : option str }.

(** A client of the service answers a request or raises. *)
Record Client := { generate_content : request → result response }.

Record UploadedFile := { file_name : str; file_bytes : list Byte.byte }.

(** The sidebar's generation settings. *)
Record Settings := {
  include_timestamps : bool;
  quiz_difficulty : str;
  num_questions : Z
}.

(** The observable state of a run: the elements rendered so far and the
    requests sent to the service so far, oldest first. *)
Record world := { rendered : list (container * element); sent : list request }.

Definition script (A : Type) : Type := world → result A * world.

#[global] Instance script_ret : MRet script := λ A a w, (Ok a, w).
#[global] Instance script_bind : MBind script := λ A B f m w,
  match m w with
  | (Ok a, w') => f a w'
  | (Raise e, w') => (Raise e, w')
  end.

Definition lift {A} (r : result A) : script A := λ w, (r, w).

Definition render (c : container) (e : element) : script unit :=
  λ w, (Ok tt, {| rendered := rendered w ++ [(c, e)]; sent := sent w |}).

Definition send (client : Client) (req : request) : script response :=
  λ w, (generate_content client req,
        {| rendered := rendered w; sent := sent w ++ [req] |}).

(** [try: body  except Exception as e: handler e] *)
Definition try_except {A} (body : script A) (handler : exception → script A)
  : script A :=
  λ w, match body w with
       | (Ok a, w') => (Ok a, w')
       | (Raise e, w') => handler e w'
       end.

(** Looking up a string method on [response.text]. *)
Definition method (text : option str) (name : str) : result str :=
  match text with
  | Some s => Ok s
  | None =>
      Raise (AttributeError
               (u"'NoneType' object has no attribute '" ++ name ++ u"'"))
  end.

Definition gemini_model : str := u"gemini-2.5-flash".

Definition cross_mark : str := [0x274c%N].

(** ** Pipeline (app.py, lines 84-274) *)

Section Pipeline.
Context {U : CaseDB}.

Definition transcription_request (uploaded_file : UploadedFile)
    (settings : Settings) (mime : str) : request :=
  {| model := gemini_model;
     req_contents :=
       contents_list
         [ text_part (transcription_prompt (include_timestamps settings));
           bytes_part (file_bytes uploaded_file) mime ] |}.

Definition study_request (settings : Settings) (transcript_text : str)
  : request :=
  {| model := gemini_model;
     req_contents :=
       contents_str (study_prompt transcript_text (num_questions settings)
                       (quiz_difficulty settings)) |}.

(** STEP 1 (lines 93-153); the value is [transcript_text]. *)
Definition transcribe (gemini_client : Client) (uploaded_file : UploadedFile)
    (settings : Settings) : script str :=
  try_except
    (mime ← lift (mime_type (file_name uploaded_file));
     transcription_response ←
       send gemini_client (transcription_request uploaded_file settings mime);
     raw ← lift (method (response_text transcription_response) (u"strip"));
     let transcript_text := strip raw in
     (if truthy transcript_text then
        render tab1 (st_subheader ([0x1f4dc%N] ++ u" Full Transcript"));;
        render tab1 (st_text_area (u"Transcript") transcript_text 400);;
        render tab1
          (st_download_button
             ([0x1f4e5%N] ++ u" Download Transcript")
             transcript_text
             (u"transcript_" ++ file_name uploaded_file ++ u".txt")
             (u"text/plain"))
      else
        render tab1 (st_error (u"No transcript generated. Please try again.")));;
     mret transcript_text)
    (λ e,
      render page_body
        (st_error (cross_mark ++ u" Error during transcription: " ++ exc_str e));;
      mret []).

(** STEP 2 (lines 157-263), run only for a non-empty transcript. *)
Definition generate_study_materials (gemini_client : Client)
    (uploaded_file : UploadedFile) (settings : Settings)
    (transcript_text : str) : script unit :=
  try_except
    (response ← send gemini_client (study_request settings transcript_text);
     generated_content ← lift (method (response_text response) (u"split"));
     sections ← lift (str_split generated_content (u"**"));
     render tab2 (st_subheader ([0x1f4dd%N] ++ u" Lecture Summary"));;
     s ← lift (summary_section generated_content sections);
     render tab2 (st_write s);;
     render tab3 (st_subheader ([0x1f50d%N] ++ u" Key Points"));;
     k ← lift (key_points_section sections);
     render tab3 (st_write k);;
     render tab4 (st_subheader ([0x1f9e0%N] ++ u" Knowledge Quiz"));;
     q ← lift (quiz_section sections);
     render tab4 (st_write q);;
     render page_body
       (st_subheader ([0x1f4da%N] ++ u" Download Study Materials"));;
     render col1
       (st_download_button
          ([0x1f4e5%N] ++ u" Download Complete Notes")
          (complete_notes generated_content)
          (u"study_notes_" ++ file_name uploaded_file ++ u".txt")
          (u"text/plain"));;
     render col2
       (st_download_button
          ([0x1f4cb%N] ++ u" Download Study Guide")
          (study_guide (file_name uploaded_file) transcript_text
             generated_content)
          (u"complete_study_guide_" ++ file_name uploaded_file ++ u".md")
          (u"text/markdown")))
    (λ e,
      render page_body
        (st_error (cross_mark ++ u" Error during note generation: "
                     ++ exc_str e))).

(** The body of [if gemini_api_key and uploaded_file is not None]
    (lines 86-267).  [genai_Client] is the constructor [genai.Client]. *)
Definition process (genai_Client : str → result Client)
    (gemini_api_key : str) (uploaded_file : UploadedFile)
    (settings : Settings) : script unit :=
  try_except
    (gemini_client ← lift (genai_Client gemini_api_key);
     transcript_text ← transcribe gemini_client uploaded_file settings;
     if truthy transcript_text
     then generate_study_materials gemini_client uploaded_file settings
            transcript_text
     else mret tt)
    (λ e,
      render page_body
        (st_error (cross_mark ++ u" Error initializing Gemini client: "
                     ++ exc_str e));;
      render page_body (st_info (u"Please check your API key and try again."))).

(** The two warnings of the [else] branch (lines 271-274); the static help
    panel that follows them is left out. *)
Definition welcome (gemini_api_key : str) (uploaded_file : option UploadedFile)
  : script unit :=
  (if truthy gemini_api_key then mret tt
   else render page_body
          (st_warning ([0x1f511%N]
             ++ u" Please enter your Gemini API key in the sidebar to get started.")));;
  match uploaded_file with
  | Some _ => mret tt
  | None =>
      render page_body
        (st_warning ([0x1f4c1%N]
           ++ u" Please upload an audio file to begin processing."))
  end.

Definition app (genai_Client : str → result Client) (gemini_api_key : str)
    (uploaded_file : option UploadedFile) (settings : Settings) : script unit :=
  match uploaded_file with
  | Some file =>
      if truthy gemini_api_key
      then process genai_Client gemini_api_key file settings
      else welcome gemini_api_key uploaded_file
  | None => welcome gemini_api_key uploaded_file
  end.

End Pipeline.

(** A run starts from an empty page with nothing sent. *)
Definition start : world := {| rendered := []; sent := [] |}.

(** Requests for study materials are the ones whose contents is a single
    string (the transcription request carries a list with the audio). *)
Definition is_study_request (r : request) : bool :=
  match req_contents r with
  | contents_str _ => true
  | contents_list _ => false
  end.

(** ** File uploader (app.py, line 63) *)

(** The [type] list of [st.file_uploader]: the extensions it offers. *)
Definition accepted_types : list str :=
  [ u"mp3"; u"mp4"; u"mpeg"; u"mpga"; u"m4a"; u"wav"; u"webm"; u"aac" ].

(** ** Sample inputs *)

Definition lecture_wav : UploadedFile :=
  {| file_name := u"lecture.wav"; file_bytes := [] |}.

Definition medium_five : Settings :=
  {| include_timestamps := false; quiz_difficulty := u"Medium";
     num_questions := 5 |}.

(** A service whose every answer is blank. *)
Definition blank_client : Client :=
  {| generate_content := λ _, Ok {| response_text := Some (u"   ") |} |}.

(** A service that transcribes and then fails to generate. *)
Definition transcribing_client : Client :=
  {| generate_content := λ r,
       if is_study_request r
       then Raise (APIError (u"503 UNAVAILABLE"))
       else Ok {| response_text := Some (u" Hello world. ") |} |}.

(** A service that transcribes and generates a well-formed block. *)
Definition answering_client : Client :=
  {| generate_content := λ r,
       if is_study_request r
       then Ok {| response_text :=
                    Some (text [ u"**SUMMARY**"; u"A short talk.";
                                 u"**KEY POINTS**"; u"- point one";
                                 u"**QUIZ**"; u"Q1..." ]) |}
       else Ok {| response_text := Some (u"Hello world.") |} |}.

(** ** Notions used to state the properties *)

Section Headers.
Context {U : CaseDB}.

(** Fragment number [i] is the first fragment of [sections] whose
    upper-cased form contains [label]. *)
Definition first_header (label : str) (sections : list str) (i : nat) : Prop :=
  (∃ hdr, sections !! i = Some hdr ∧ contains label (str_upper hdr) = true) ∧
  ∀ j f, (j < i)%nat → sections !! j = Some f →
         contains label (str_upper f) = false.

(** No fragment of [sections] contains [label] in its upper-cased form. *)
Definition no_header (label : str) (sections : list str) : Prop :=
  ∀ f, f ∈ sections → contains label (str_upper f) = false.

(** The stripped fragment behind the first header of [label], if both exist. *)
Definition section_after (label : str) (sections : list str) : option str :=
  match list_find (λ f, contains label (str_upper f) = true) sections with
  | Some (i, _) => strip <$> sections !! S i
  | None => None
  end.

(** Neither a header for [label] nor a fragment behind its first header:
    the cases in which the fallback applies. *)
Definition falls_back (label : str) (sections : list str) : Prop :=
  no_header label sections ∨
  ∃ i, first_header label sections i ∧ S i = length sections.

End Headers.

(** The last of the fragments of [name] between its dots. *)
Definition last_component (name : str) : str :=
  default [] (last (split_scan (u".") 0 [] name)).

(** The type [mime_type] computes for a file name, in closed form. *)
Definition resolved_mime {U : CaseDB} (name : str) : str :=
  default (u"audio/mpeg") (mime_type_map !! str_lower (last_component name)).

(** How many requests for study materials a run has sent. *)
Definition study_requests (w : world) : nat :=
  length (filter (λ r, is_study_request r = true) (sent w)).

(** * Properties *)

(** ** Strings *)

Lemma startswith_spec (s p : str) :
  startswith s p = true ↔ ∃ r, s = p ++ r.
Proof.
  revert s. induction p as [|a p IH]; intros s; simpl.
  - split; [intros _; by exists s | done].
  - destruct s as [|b s]; simpl.
    + split; [done | intros [r Hr]; done].
    + rewrite andb_true_iff, N.eqb_eq, IH. split.
      * intros [-> [r ->]]. eauto.
      * intros [r Hr]. injection Hr as -> ->. eauto.
Qed.

Lemma contains_spec (sub s : str) :
  contains sub s = true ↔ ∃ a b, s = a ++ sub ++ b.
Proof.
  induction s as [|c s IH]; simpl.
  - rewrite orb_false_r, startswith_spec. split.
    + intros [r Hr]. by exists [], r.
    + intros (a & b & H). destruct a; simpl in *; [eauto | done].
  - rewrite orb_true_iff, startswith_spec, IH. split.
    + intros [[r Hr] | (a & b & ->)]; [by exists [], r | by exists (c :: a), b].
    + intros (a & b & H). destruct a as [|c' a]; simpl in *.
      * left; eauto.
      * right. injection H as -> ->. eauto.
Qed.

Lemma contains_app_l (sub s t : str) :
  contains sub s = true → contains sub (s ++ t) = true.
Proof.
  rewrite !contains_spec. intros (a & b & ->).
  exists a, (b ++ t). by rewrite <- !app_assoc.
Qed.

Lemma contains_app_r (sub s t : str) :
  contains sub t = true → contains sub (s ++ t) = true.
Proof.
  rewrite !contains_spec. intros (a & b & ->).
  exists (s ++ a), b. by rewrite <- !app_assoc.
Qed.

Lemma contains_here (sub t : str) : contains sub (sub ++ t) = true.
Proof. apply contains_spec. by exists [], t. Qed.

Lemma contains_single (d : N) (s : str) :
  contains [d] s = true ↔ d ∈ s.
Proof.
  rewrite contains_spec. split.
  - intros (a & b & ->). set_solver.
  - intros (a & b & ->)%list_elem_of_split. by exists a, b.
Qed.

Lemma contains_single_false (d : N) (s : str) :
  d ∉ s → contains [d] s = false.
Proof.
  intros H. destruct (contains [d] s) eqn:E; [|done].
  by apply contains_single in E.
Qed.

(** Case analysis on the integer comparisons of the goal. *)
Ltac cases_Z :=
  repeat match goal with
    | |- context [(?a <? ?b)] => destruct (Z.ltb_spec a b)
    | |- context [(?a <=? ?b)] => destruct (Z.leb_spec a b)
    end;
  try lia; cbn [andb orb].

(** *** [split] *)

Lemma split_scan_skip (sep : str) (k : nat) (cur pre s : str) :
  length pre = k →
  split_scan sep k cur (pre ++ s) = split_scan sep 0 cur s.
Proof.
  revert k. induction pre as [|c pre IH]; intros k <-; simpl; [done|].
  by apply IH.
Qed.

(** At an occurrence of the separator the current fragment is closed and
    the scan resumes behind the separator. *)
Lemma split_scan_match (sep cur s : str) :
  sep ≠ [] →
  split_scan sep 0 cur (sep ++ s) = reverse cur :: split_scan sep 0 [] s.
Proof.
  destruct sep as [|c sep]; [done|]. intros _.
  change ((c :: sep) ++ s) with (c :: (sep ++ s)).
  cbn [split_scan].
  replace (startswith (c :: sep ++ s) (c :: sep)) with true.
  - cbn [length Nat.pred]. by rewrite split_scan_skip.
  - symmetry. apply startswith_spec. by exists s.
Qed.

Lemma split_scan_step (sep cur : str) (c : N) (s : str) :
  startswith (c :: s) sep = false →
  split_scan sep 0 cur (c :: s) = split_scan sep 0 (c :: cur) s.
Proof. intros H. cbn [split_scan]. by rewrite H. Qed.

Lemma split_scan_nonempty (sep : str) (k : nat) (cur s : str) :
  split_scan sep k cur s ≠ [].
Proof.
  revert k cur. induction s as [|c s IH]; intros k cur; [done|].
  cbn [split_scan]. destruct k; [|apply IH].
  destruct (startswith _ _); [done | apply IH].
Qed.

(** Without an occurrence of the separator the text is the only fragment. *)
Lemma split_scan_no_sep (sep cur s : str) :
  sep ≠ [] → contains sep s = false →
  split_scan sep 0 cur s = [reverse cur ++ s].
Proof.
  intros Hsep. revert cur. induction s as [|c s IH]; intros cur H.
  - by rewrite app_nil_r.
  - cbn [contains] in H. apply orb_false_iff in H as [H1 H2].
    rewrite split_scan_step, IH by done.
    by rewrite reverse_cons, <- app_assoc.
Qed.

Lemma join_cons (sep p : str) (ps : list str) :
  ps ≠ [] → join sep (p :: ps) = p ++ sep ++ join sep ps.
Proof. by destruct ps. Qed.

(** Joining the fragments with the separator gives the text back. *)
Lemma join_split_scan (sep : str) (n : nat) (cur s : str) :
  sep ≠ [] → (length s < n)%nat →
  join sep (split_scan sep 0 cur s) = reverse cur ++ s.
Proof.
  intros Hsep. revert cur s.
  induction n as [|n IH]; intros cur s Hn; [lia|].
  destruct s as [|c s]; [by rewrite app_nil_r|].
  destruct (startswith (c :: s) sep) eqn:E.
  - apply startswith_spec in E as [r Hr]. rewrite Hr.
    rewrite split_scan_match by done.
    assert (length r < n)%nat as Hr'.
    { apply (f_equal length) in Hr. rewrite length_app in Hr.
      destruct sep; [done|]. simpl in Hr, Hn. lia. }
    rewrite join_cons by apply split_scan_nonempty.
    by rewrite (IH [] r Hr').
  - rewrite split_scan_step by done.
    rewrite IH by (simpl in Hn; lia).
    by rewrite reverse_cons, <- app_assoc.
Qed.

Lemma join_str_split (s sep : str) (parts : list str) :
  str_split s sep = Ok parts → join sep parts = s.
Proof.
  unfold str_split. destruct sep as [|c sep']; [done|].
  intros [= <-]. by rewrite (join_split_scan _ (S (length s))) by (done || lia).
Qed.

(** Every fragment is made of characters of the text. *)
Lemma split_scan_Forall (P : N → Prop) (sep : str) (k : nat) (cur s : str) :
  Forall P cur → Forall P s → Forall (Forall P) (split_scan sep k cur s).
Proof.
  revert k cur. induction s as [|c s IH]; intros k cur Hcur Hs.
  - repeat constructor. by apply Forall_reverse.
  - apply Forall_cons in Hs as [Hc Hs]. cbn [split_scan].
    destruct k; [|by apply IH].
    destruct (startswith _ _).
    + constructor; [by apply Forall_reverse | by apply IH].
    + apply IH; [by constructor | done].
Qed.

(** For a one-character separator the last fragment is the text behind its
    last occurrence. *)
Lemma split_scan_last (d : N) (cur stem ext : str) :
  d ∉ ext →
  last (split_scan [d] 0 cur (stem ++ d :: ext)) = Some ext.
Proof.
  intros Hext. revert cur. induction stem as [|c stem IH]; intros cur.
  - change ([] ++ d :: ext) with ([d] ++ ext).
    rewrite split_scan_match by done.
    rewrite split_scan_no_sep by (done || by apply contains_single_false).
    done.
  - change ((c :: stem) ++ d :: ext) with (c :: (stem ++ d :: ext)).
    cbn [split_scan startswith length Nat.pred].
    rewrite andb_true_r. destruct (d =? c)%N.
    + specialize (IH []).
      destruct (split_scan [d] 0 [] (stem ++ d :: ext)); [done|].
      by rewrite last_cons_cons.
    + apply IH.
Qed.

(** *** Indexing *)

Lemma getitem_lookup {A} (l : list A) (i : nat) (x : A) :
  l !! i = Some x → getitem l (Z.of_nat i) = Ok x.
Proof.
  intros H. pose proof (lookup_lt_Some _ _ _ H) as Hlt.
  unfold getitem. cbn zeta. cases_Z.
  by rewrite Nat2Z.id, H.
Qed.

Lemma getitem_last {A} (l : list A) (x : A) :
  last l = Some x → getitem l (-1) = Ok x.
Proof.
  intros H. rewrite last_lookup in H.
  pose proof (lookup_lt_Some _ _ _ H) as Hlt.
  unfold getitem. cbn zeta. cases_Z.
  replace (Z.to_nat (-1 + Z.of_nat (length l))) with (Nat.pred (length l))
    by lia.
  by rewrite H.
Qed.

(** ** SectionExtractor *)

Section ExtractorFacts.
Context {U : CaseDB}.

(** The loop, started behind the fragments [seen], computes
    [section_after] on what is left. *)
Lemma scan_sections_spec (label : str) (seen todo : list str) :
  scan_sections label (seen ++ todo) (Z.of_nat (length seen)) todo =
  Ok (match list_find (λ f, contains label (str_upper f) = true) todo with
      | Some (j, _) => strip <$> (seen ++ todo) !! S (length seen + j)
      | None => None
      end).
Proof.
  revert seen. induction todo as [|x todo IH]; intros seen; [done|].
  cbn [scan_sections list_find].
  destruct (contains label (str_upper x)) eqn:E.
  - rewrite decide_True by done. rewrite length_app. cbn [length].
    rewrite Nat.add_0_r.
    destruct todo as [|y todo].
    + cbn [length]. cases_Z. cbn [scan_sections].
      rewrite lookup_ge_None_2; [done|]. rewrite length_app. simpl. lia.
    + cbn [length]. cases_Z.
      assert ((seen ++ x :: y :: todo) !! S (length seen) = Some y) as Hy.
      { rewrite lookup_app_r by lia.
        by replace (S (length seen) - length seen)%nat with 1%nat by lia. }
      replace (Z.of_nat (length seen) + 1) with (Z.of_nat (S (length seen)))
        by lia.
      by rewrite (getitem_lookup _ _ _ Hy), Hy.
  - rewrite decide_False by congruence.
    specialize (IH (seen ++ [x])).
    rewrite <- app_assoc, length_app in IH. cbn [length] in IH.
    change ([x] ++ todo) with (x :: todo) in IH.
    replace (Z.of_nat (length seen) + 1)
      with (Z.of_nat (length seen + 1)) by lia.
    rewrite IH.
    destruct (list_find _ todo) as [[j f]|]; [|done].
    cbn. do 3 f_equal. lia.
Qed.

Lemma find_section_spec (label : str) (sections : list str) :
  find_section label sections = Ok (section_after label sections).
Proof. apply (scan_sections_spec label [] sections). Qed.

Lemma first_header_find (label : str) (sections : list str) (i : nat) :
  first_header label sections i ↔
  ∃ hdr, list_find (λ f, contains label (str_upper f) = true) sections
         = Some (i, hdr).
Proof.
  unfold first_header. setoid_rewrite list_find_Some. split.
  - intros [(hdr & Hi & Hh) Hlt]. exists hdr. split_and!; [done..|].
    intros j y Hj Hji. rewrite (Hlt j y) by done. done.
  - intros (hdr & Hi & Hh & Hlt). split; [by exists hdr|].
    intros j f Hji Hj. specialize (Hlt j f Hj Hji).
    by destruct (contains label (str_upper f)).
Qed.

Lemma section_after_found (label : str) (sections : list str) (i : nat)
    (next : str) :
  first_header label sections i → sections !! S i = Some next →
  section_after label sections = Some (strip next).
Proof.
  intros [hdr Hf]%first_header_find Hn. unfold section_after.
  by rewrite Hf, Hn.
Qed.

Lemma section_after_last (label : str) (sections : list str) (i : nat) :
  first_header label sections i → S i = length sections →
  section_after label sections = None.
Proof.
  intros [hdr Hf]%first_header_find Hn. unfold section_after.
  rewrite Hf, lookup_ge_None_2; [done | lia].
Qed.

Lemma section_after_absent (label : str) (sections : list str) :
  no_header label sections → section_after label sections = None.
Proof.
  intros Hno. unfold section_after.
  replace (list_find _ sections) with (@None (nat * str)); [done|].
  symmetry. apply list_find_None, Forall_forall. intros f Hf.
  by rewrite (Hno f Hf).
Qed.

(** What [section_after] can be: a stripped fragment behind the first
    header, or nothing because there is no header or the first one is the
    last fragment. *)
Lemma section_after_cases (label : str) (sections : list str) :
  (∃ i next, first_header label sections i ∧ sections !! S i = Some next ∧
             section_after label sections = Some (strip next)) ∨
  (section_after label sections = None ∧
   (no_header label sections ∨
    ∃ i, first_header label sections i ∧ S i = length sections)).
Proof.
  destruct (list_find (λ f, contains label (str_upper f) = true) sections)
    as [[i hdr]|] eqn:E.
  - assert (first_header label sections i) as Hi
        by (apply first_header_find; eauto).
    destruct (sections !! S i) as [next|] eqn:En.
    + left. exists i, next. eauto using section_after_found.
    + right. apply list_find_Some in E as (Hl & _).
      apply lookup_lt_Some in Hl. apply lookup_ge_None in En.
      assert (S i = length sections) by lia.
      split; [by eapply section_after_last | right; by exists i].
  - right. apply list_find_None in E.
    assert (no_header label sections) as Hno.
    { intros f Hf. rewrite Forall_forall in E. specialize (E f Hf).
      by destruct (contains label (str_upper f)). }
    split; [by apply section_after_absent | by left].
Qed.

(** [extract] in closed form: it never raises. *)
Lemma extract_spec (generated_content : str) :
  extract generated_content =
  let sections := split_scan (u"**") 0 [] generated_content in
  Ok {| summary_text :=
          default (summary_fallback generated_content)
                  (section_after (u"SUMMARY") sections);
        key_points :=
          default key_points_placeholder
                  (section_after (u"KEY POINTS") sections);
        quiz_text :=
          default quiz_placeholder (section_after (u"QUIZ") sections) |}.
Proof.
  unfold extract, summary_section, key_points_section, quiz_section.
  change (str_split generated_content (u"**"))
    with (Ok (split_scan (u"**") 0 [] generated_content)).
  cbn [mbind result_bind]. by rewrite !find_section_spec.
Qed.

End ExtractorFacts.

(** ** Running the model on ASCII text *)

Lemma ascii_case_db_faithful : ascii_faithful ascii_case_db.
Proof. by intros s _. Qed.

Lemma forallb_Forall (s : str) :
  forallb is_ascii s = true ↔ Forall (λ c, is_ascii c = true) s.
Proof.
  induction s as [|c s IH]; simpl; [by split|].
  rewrite andb_true_iff, IH, Forall_cons. done.
Qed.

Lemma section_after_cons (U : CaseDB) (label x : str) (l : list str) :
  contains label (str_upper x) = false →
  section_after label (x :: l) = section_after label l.
Proof.
  intros H. unfold section_after. cbn [list_find].
  rewrite decide_False by congruence.
  by destruct (list_find _ l) as [[i f]|].
Qed.

Lemma section_after_ext (U1 U2 : CaseDB) (label : str) (l : list str) :
  Forall (λ f, @str_upper U1 f = @str_upper U2 f) l →
  @section_after U1 label l = @section_after U2 label l.
Proof.
  intros H. unfold section_after.
  assert (list_find (λ f, contains label (@str_upper U1 f) = true) l
          = list_find (λ f, contains label (@str_upper U2 f) = true) l) as ->;
    [|done].
  induction H as [|x l Hx _ IH]; [done|].
  cbn [list_find]. rewrite Hx, IH. done.
Qed.

Lemma section_after_ascii (U : CaseDB) (label : str) (l : list str) :
  ascii_faithful U → Forall (λ f, forallb is_ascii f = true) l →
  @section_after U label l = @section_after ascii_case_db label l.
Proof.
  intros HU Hl. apply section_after_ext.
  eapply Forall_impl; [exact Hl|]. intros f Hf. by destruct (HU f Hf).
Qed.

(** On an ASCII block every faithful case mapping gives the sections that
    the ASCII mapping gives, so the model can be run on it. *)
Lemma extract_ascii (U : CaseDB) (raw : str) :
  ascii_faithful U → forallb is_ascii raw = true →
  @extract U raw = @extract ascii_case_db raw.
Proof.
  intros HU Hraw. rewrite !extract_spec. cbn zeta.
  assert (Forall (λ f, forallb is_ascii f = true)
                 (split_scan (u"**") 0 [] raw)) as Hfrag.
  { eapply Forall_impl.
    - apply (split_scan_Forall (λ c, is_ascii c = true));
        [constructor | by apply forallb_Forall].
    - intros f Hf. by apply forallb_Forall. }
  by rewrite !(section_after_ascii U) by done.
Qed.

(** ** MimeResolver *)

Lemma mime_type_spec (U : CaseDB) (name : str) :
  mime_type name =
  Ok (default (u"audio/mpeg") (mime_type_map !! str_lower (last_component name))).
Proof.
  unfold mime_type, file_extension, last_component.
  change (str_split name (u".")) with (Ok (split_scan (u".") 0 [] name)).
  cbn [mbind result_bind].
  destruct (last (split_scan (u".") 0 [] name)) as [x|] eqn:E.
  - by rewrite (getitem_last _ _ E).
  - apply last_None in E. by apply split_scan_nonempty in E.
Qed.

Lemma last_component_dotless (name : str) :
  46%N ∉ name → last_component name = name.
Proof.
  intros H. unfold last_component.
  by rewrite split_scan_no_sep by (done || by apply contains_single_false).
Qed.

Lemma last_component_dot (stem ext : str) :
  46%N ∉ ext → last_component (stem ++ u"." ++ ext) = ext.
Proof.
  intros H. unfold last_component.
  change (stem ++ u"." ++ ext) with (stem ++ 46%N :: ext).
  change (u".") with [46%N]. by rewrite split_scan_last.
Qed.

Lemma last_component_Forall (P : N → Prop) (name : str) :
  Forall P name → Forall P (last_component name).
Proof.
  intros H. unfold last_component.
  pose proof (split_scan_Forall P (u".") 0 [] name (Forall_nil_2 _) H) as HF.
  destruct (last _) as [x|] eqn:E; [|done]. simpl.
  apply last_Some_elem_of in E. rewrite Forall_forall in HF. by apply HF.
Qed.

(** On an ASCII file name every faithful case mapping resolves the type
    that the ASCII mapping resolves. *)
Lemma mime_type_ascii (U : CaseDB) (name : str) :
  ascii_faithful U → forallb is_ascii name = true →
  @mime_type U name = @mime_type ascii_case_db name.
Proof.
  intros HU Hname. rewrite !mime_type_spec.
  assert (forallb is_ascii (last_component name) = true) as Hlast.
  { apply forallb_Forall, last_component_Forall. by apply forallb_Forall. }
  destruct (HU _ Hlast) as [_ ->]. done.
Qed.

(** Every name has no dot, or a last dot. *)
Lemma last_dot (name : str) :
  (46%N ∉ name) ∨ ∃ stem ext, name = stem ++ u"." ++ ext ∧ (46%N ∉ ext).
Proof.
  induction name as [|c name IH]; [left; set_solver|].
  destruct IH as [IH | (stem & ext & -> & Hext)].
  - destruct (decide (c = 46%N)) as [->|Hc].
    + right. by exists [], name.
    + left. by intros [?|?]%elem_of_cons.
  - right. by exists (c :: stem), ext.
Qed.

Lemma mime_type_map_entry (k v : str) :
  (k, v) ∈ mime_table → mime_type_map !! k = Some v.
Proof.
  apply elem_of_list_to_map_1. compute_done.
Qed.

Lemma mime_type_map_other (e : str) :
  e ∉ mime_table.*1 → mime_type_map !! e = None.
Proof. apply not_elem_of_list_to_map_1. Qed.

(** The three table keys are fixed points of lower-casing. *)
Lemma mime_keys_lower (U : CaseDB) (k v : str) :
  ascii_faithful U → (k, v) ∈ mime_table → str_lower k = k.
Proof.
  intros HU Hk.
  assert (forallb is_ascii k = true ∧ ascii_lower <$> k = k) as [Ha Hl].
  { revert Hk. unfold mime_table. rewrite !elem_of_cons, elem_of_nil.
    intros H. repeat (destruct H as [H|H]; [by injection H as -> ->|]). done. }
  destruct (HU k Ha) as [_ ->]. done.
Qed.

Lemma last_component_unique (name ext : str) :
  ((46%N ∉ name) ∧ ext = name) ∨
    (∃ stem, name = stem ++ u"." ++ ext ∧ (46%N ∉ ext)) →
  last_component name = ext.
Proof.
  intros [[H ->] | (stem & -> & H)].
  - by apply last_component_dotless.
  - by apply last_component_dot.
Qed.

(** C5 (as amended).  [mime_type] never raises.  It looks up, in the fixed
    table, the lower-cased text behind the last ['.'] of the file name, and
    the lower-cased whole name when the name has no ['.']: a key of the
    table gives its listed type, anything else gives [audio/mpeg]. *)
Theorem mime_type_resolves (U : CaseDB) (name : str) :
  (∃ m, mime_type name = Ok m) ∧
  (∃ ext, ((46%N ∉ name) ∧ ext = name) ∨
          (∃ stem, name = stem ++ u"." ++ ext ∧ (46%N ∉ ext))) ∧
  ∀ ext : str,
    ((46%N ∉ name) ∧ ext = name) ∨
      (∃ stem, name = stem ++ u"." ++ ext ∧ (46%N ∉ ext)) →
    (∀ k v,
       (k, v) ∈ [ (u"mp3", u"audio/mp3"); (u"mpeg", u"audio/mpeg");
                  (u"mpga", u"audio/mpeg"); (u"mp4", u"audio/mp4");
                  (u"m4a", u"audio/mp4"); (u"wav", u"audio/wav");
                  (u"webm", u"audio/webm"); (u"aac", u"audio/aac") ] →
       str_lower ext = k → mime_type name = Ok v) ∧
    (str_lower ext ∉ [ u"mp3"; u"mpeg"; u"mpga"; u"mp4"; u"m4a"; u"wav";
                       u"webm"; u"aac" ] →
     mime_type name = Ok (u"audio/mpeg")).
Proof.
  split_and!.
  - rewrite mime_type_spec. eauto.
  - destruct (last_dot name) as [H | (stem & ext & -> & H)].
    + exists name. by left.
    + exists ext. right. by exists stem.
  - intros ext <-%last_component_unique. split.
    + intros k v Hkv <-. rewrite mime_type_spec.
      by rewrite (mime_type_map_entry _ _ Hkv).
    + intros H. rewrite mime_type_spec. by rewrite mime_type_map_other.
Qed.

(** C5, the counterexample: the name [mp3] has no ['.'], hence no
    extension, and yet under no ASCII-faithful case mapping does it resolve
    to the default [audio/mpeg]. *)
Lemma mime_type_missing_extension_not_default :
  (46%N ∉ u"mp3") ∧
  ¬ ∃ U : CaseDB, ascii_faithful U ∧
      @mime_type U (u"mp3") = Ok (u"audio/mpeg").
Proof.
  split; [compute_done|]. intros (U & HU & H).
  rewrite mime_type_spec, last_component_dotless in H by compute_done.
  destruct (HU (u"mp3") eq_refl) as [_ Hl]. rewrite Hl in H.
  vm_compute in H. discriminate.
Qed.

(** C10, the counterexample: the name [MP3] has no ['.'] and is not itself
    a key of the table, and yet under no ASCII-faithful case mapping does
    it resolve to the default [audio/mpeg] (it resolves like [mp3]). *)
Lemma mime_type_dotless_upper_case_not_default :
  (46%N ∉ u"MP3") ∧ (u"MP3" ∉ mime_table.*1) ∧
  ¬ ∃ U : CaseDB, ascii_faithful U ∧
      @mime_type U (u"MP3") = Ok (u"audio/mpeg").
Proof.
  split; [compute_done|]. split; [compute_done|]. intros (U & HU & H).
  rewrite mime_type_spec, last_component_dotless in H by compute_done.
  destruct (HU (u"MP3") eq_refl) as [_ Hl]. rewrite Hl in H.
  vm_compute in H. discriminate.
Qed.

(** C10 (as amended).  A file name without ['.'] is looked up whole,
    lower-cased: when its lower-cased form is a key of the table the result
    is the key's type (so the name [mp3] gives [audio/mp3]), and when its
    lower-cased form is not a key the result is [audio/mpeg]. *)
Theorem mime_type_dotless (U : CaseDB) (name : str) :
  46%N ∉ name →
  mime_type name
    = Ok (default (u"audio/mpeg") (mime_type_map !! str_lower name)) ∧
  (∀ k v, (k, v) ∈ mime_table → str_lower name = k → mime_type name = Ok v) ∧
  (str_lower name ∉ mime_table.*1 → mime_type name = Ok (u"audio/mpeg")) ∧
  (ascii_faithful U →
   ∀ k v, (k, v) ∈ mime_table → name = k → mime_type name = Ok v) ∧
  (ascii_faithful U → name = u"mp3" → mime_type name = Ok (u"audio/mp3")).
Proof.
  intros Hdot.
  assert (mime_type name
    = Ok (default (u"audio/mpeg") (mime_type_map !! str_lower name))) as Hm.
  { by rewrite mime_type_spec, last_component_dotless. }
  assert (∀ k v, (k, v) ∈ mime_table → str_lower name = k →
                 mime_type name = Ok v) as Hkey.
  { intros k v Hkv Hk. by rewrite Hm, Hk, (mime_type_map_entry _ _ Hkv). }
  split_and!; [done | done | | |].
  - intros H. by rewrite Hm, mime_type_map_other.
  - intros HU k v Hkv ->. apply (Hkey k v Hkv). by eapply mime_keys_lower.
  - intros HU ->.
    assert ((u"mp3", u"audio/mp3") ∈ mime_table) as Hkv by compute_done.
    apply (Hkey _ _ Hkv). by eapply mime_keys_lower.
Qed.

Lemma mime_type_dotless_witness :
  @mime_type ascii_case_db (u"mp3") = Ok (u"audio/mp3").
Proof.
  refine (proj2 (proj2 (proj2 (proj2
            (mime_type_dotless ascii_case_db (u"mp3") _))))
            ascii_case_db_faithful eq_refl).
  compute_done.
Defined.

(** ** SectionExtractor: the claims *)

Lemma split_scan_prefix (c : N) (sep cur pre s : str) :
  c ∉ pre →
  split_scan (c :: sep) 0 cur (pre ++ (c :: sep) ++ s)
  = (reverse cur ++ pre) :: split_scan (c :: sep) 0 [] s.
Proof.
  revert cur. induction pre as [|a pre IH]; intros cur Hpre.
  - rewrite app_nil_r. by apply (split_scan_match (c :: sep)).
  - apply not_elem_of_cons in Hpre as [Hca Hpre].
    change ((a :: pre) ++ (c :: sep) ++ s) with (a :: (pre ++ (c :: sep) ++ s)).
    rewrite split_scan_step.
    + rewrite IH by done. by rewrite reverse_cons, <- app_assoc.
    + cbn [startswith]. by rewrite (proj2 (N.eqb_neq c a)).
Qed.

Lemma section_after_singleton (U : CaseDB) (label x : str) :
  section_after label [x] = None.
Proof.
  unfold section_after. cbn [list_find]. by case_decide.
Qed.

(** C1.  On a block made of any text without asterisk and without the three
    labels (such as [...]) followed by
    [**SUMMARY**\nfoo\n**KEY POINTS**\nbar\n**QUIZ**\nbaz], the three
    sections are [foo], [bar] and [baz].  In general each section is the
    stripped fragment right behind the first fragment, among those obtained
    by splitting on [**], whose upper-cased form contains the label. *)
Theorem extract_section_after_first_header (U : CaseDB) :
  (∀ pre : str,
     ascii_faithful U →
     42%N ∉ pre →
     contains (u"SUMMARY") (str_upper pre) = false →
     contains (u"KEY POINTS") (str_upper pre) = false →
     contains (u"QUIZ") (str_upper pre) = false →
     extract (pre ++ text [ u"**SUMMARY**"; u"foo"; u"**KEY POINTS**"; u"bar";
                            u"**QUIZ**"; u"baz" ])
     = Ok {| summary_text := u"foo"; key_points := u"bar";
             quiz_text := u"baz" |}) ∧
  ∀ raw : str, ∃ sections notes,
    str_split raw (u"**") = Ok sections ∧ extract raw = Ok notes ∧
    (∀ i next, first_header (u"SUMMARY") sections i →
               sections !! S i = Some next →
               summary_text notes = strip next) ∧
    (∀ i next, first_header (u"KEY POINTS") sections i →
               sections !! S i = Some next →
               key_points notes = strip next) ∧
    (∀ i next, first_header (u"QUIZ") sections i →
               sections !! S i = Some next →
               quiz_text notes = strip next).
Proof.
  split.
  - intros pre HU Hpre Hs Hk Hq.
    rewrite extract_spec. cbn zeta.
    change (text [ u"**SUMMARY**"; u"foo"; u"**KEY POINTS**"; u"bar";
                   u"**QUIZ**"; u"baz" ])
      with (u"**" ++ text [ u"SUMMARY**"; u"foo"; u"**KEY POINTS**"; u"bar";
                            u"**QUIZ**"; u"baz" ]).
    change (u"**") with [42%N; 42%N].
    rewrite (split_scan_prefix 42 [42%N] [] pre) by done.
    change (reverse [] ++ pre) with pre.
    replace (split_scan [42%N; 42%N] 0 []
               (text [ u"SUMMARY**"; u"foo"; u"**KEY POINTS**"; u"bar";
                       u"**QUIZ**"; u"baz" ]))
      with [ u"SUMMARY"; NL ++ u"foo" ++ NL; u"KEY POINTS";
             NL ++ u"bar" ++ NL; u"QUIZ"; NL ++ u"baz" ]
      by (by vm_compute).
    rewrite (section_after_cons U (u"SUMMARY") pre),
      (section_after_cons U (u"KEY POINTS") pre),
      (section_after_cons U (u"QUIZ") pre) by done.
    rewrite !(section_after_ascii U) by (done || by repeat constructor).
    by vm_compute.
  - intros raw. exists (split_scan (u"**") 0 [] raw). eexists.
    split; [reflexivity|].
    split; [apply extract_spec|]. cbn zeta.
    split_and!; intros i next Hf Hn; cbn [summary_text key_points quiz_text];
      by rewrite (section_after_found _ _ _ _ Hf Hn).
Qed.

Lemma extract_section_after_first_header_witness :
  @extract ascii_case_db
    (u"..." ++ text [ u"**SUMMARY**"; u"foo"; u"**KEY POINTS**"; u"bar";
                      u"**QUIZ**"; u"baz" ])
  = Ok {| summary_text := u"foo"; key_points := u"bar"; quiz_text := u"baz" |}.
Proof.
  refine (proj1 (extract_section_after_first_header ascii_case_db) (u"...")
            ascii_case_db_faithful _ _ _ _).
  - compute_done.
  - reflexivity.
  - reflexivity.
  - reflexivity.
Defined.

(** C2.  A block without [**] falls back in all three sections; so does any
    section whose label has no header fragment, or whose first header is
    the last fragment.  The summary then is the block itself when it has at
    most 500 characters and its first 500 characters followed by [...]
    otherwise; key points and quiz are their fixed placeholder texts. *)
Theorem extract_fallback (U : CaseDB) (raw : str) :
  (contains (u"**") raw = false →
   extract raw
   = Ok {| summary_text := summary_fallback raw;
           key_points := u"Key points extracted from the lecture content.";
           quiz_text := u"Quiz questions based on the lecture content." |}) ∧
  (∃ sections notes,
     str_split raw (u"**") = Ok sections ∧ extract raw = Ok notes ∧
     (falls_back (u"SUMMARY") sections →
      summary_text notes = summary_fallback raw) ∧
     (falls_back (u"KEY POINTS") sections →
      key_points notes = u"Key points extracted from the lecture content.") ∧
     (falls_back (u"QUIZ") sections →
      quiz_text notes = u"Quiz questions based on the lecture content.")) ∧
  ((500 < length raw)%nat → summary_fallback raw = take 500 raw ++ u"...") ∧
  ((length raw ≤ 500)%nat →
   summary_fallback raw = raw ∧ take 500 raw = raw).
Proof.
  assert (∀ label sections,
            falls_back label sections → section_after label sections = None)
    as Hfb.
  { intros label sections [H | (i & Hi & Hlen)].
    - by apply section_after_absent.
    - by eapply section_after_last. }
  split_and!.
  - intros H. rewrite extract_spec. cbn zeta.
    rewrite split_scan_no_sep by done.
    by rewrite !section_after_singleton.
  - exists (split_scan (u"**") 0 [] raw). eexists.
    split; [reflexivity|].
    split; [apply extract_spec|]. cbn zeta.
    split_and!; intros H; cbn [summary_text key_points quiz_text];
      by rewrite (Hfb _ _ H).
  - intros H. unfold summary_fallback. by cases_Z.
  - intros H. unfold summary_fallback. cases_Z.
    split; [done | by rewrite take_ge].
Qed.

(** C6.  [extract] returns on every block, and each of the three fields
    holds either the stripped fragment behind the first header of its label
    or that label's fallback. *)
Theorem extract_total (U : CaseDB) (raw : str) :
  ∃ sections notes,
    str_split raw (u"**") = Ok sections ∧ extract raw = Ok notes ∧
    ((∃ i next, first_header (u"SUMMARY") sections i ∧
                sections !! S i = Some next ∧
                summary_text notes = strip next) ∨
     (falls_back (u"SUMMARY") sections ∧
      summary_text notes = summary_fallback raw)) ∧
    ((∃ i next, first_header (u"KEY POINTS") sections i ∧
                sections !! S i = Some next ∧
                key_points notes = strip next) ∨
     (falls_back (u"KEY POINTS") sections ∧
      key_points notes = key_points_placeholder)) ∧
    ((∃ i next, first_header (u"QUIZ") sections i ∧
                sections !! S i = Some next ∧
                quiz_text notes = strip next) ∨
     (falls_back (u"QUIZ") sections ∧
      quiz_text notes = quiz_placeholder)).
Proof.
  exists (split_scan (u"**") 0 [] raw). eexists.
  split; [reflexivity|].
  split; [apply extract_spec|]. cbn zeta.
  split_and!; cbn [summary_text key_points quiz_text];
    match goal with
    | |- context [section_after ?l ?s] =>
        destruct (section_after_cases l s)
          as [(i & next & Hi & Hn & ->) | [-> Hfb]]
    end; first [ left; by exists i, next | right; by split ].
Qed.

(** ** PromptBuilder *)

(** C8.  The transcription prompt contains the timestamp clause exactly
    when timestamps are requested; without them it is the base
    instruction, with them the base instruction followed by the clause. *)
Theorem transcription_prompt_timestamps (include_timestamps : bool) :
  contains (u"Include timestamps where possible")
           (transcription_prompt include_timestamps) = include_timestamps ∧
  (include_timestamps = false →
   transcription_prompt include_timestamps = transcription_base) ∧
  (include_timestamps = true →
   transcription_prompt include_timestamps
   = transcription_base ++ u" Include timestamps where possible.").
Proof.
  destruct include_timestamps; (split_and!; [by vm_compute | done | done]).
Qed.

(** C7.  The study prompt contains the transcript, the number of questions
    and the lower-cased difficulty (in the phrase asking for the quiz), and
    the three headers [**SUMMARY**], [**KEY POINTS**] and [**QUIZ**]. *)
Theorem study_prompt_embeds (U : CaseDB) (transcript_text : str)
    (num_questions : Z) (quiz_difficulty : str) :
  let prompt := study_prompt transcript_text num_questions quiz_difficulty in
  contains transcript_text prompt = true ∧
  contains (str_of_int num_questions) prompt = true ∧
  contains (str_lower quiz_difficulty) prompt = true ∧
  contains (u"**QUIZ**: Create " ++ str_of_int num_questions ++ u" "
              ++ str_lower quiz_difficulty
              ++ u"-level multiple-choice questions") prompt = true ∧
  contains (u"Transcript:" ++ NL ++ u"                    ---" ++ NL
              ++ u"                    " ++ transcript_text ++ NL) prompt
    = true ∧
  contains (u"**SUMMARY**") prompt = true ∧
  contains (u"**KEY POINTS**") prompt = true ∧
  contains (u"**QUIZ**") prompt = true.
Proof.
  cbn zeta. unfold study_prompt. split_and!.
  - do 5 apply contains_app_r. apply contains_here.
  - apply contains_app_r, contains_here.
  - do 3 apply contains_app_r. apply contains_here.
  - pose (ask := u"**QUIZ**: Create ").
    pose (level := u"-level multiple-choice questions").
    assert (study_prompt_head
            = take (length study_prompt_head - length ask) study_prompt_head
                ++ ask) as Hhead by (by vm_compute).
    assert (study_prompt_middle
            = level ++ drop (length level) study_prompt_middle) as Hmid
        by (by vm_compute).
    apply contains_spec.
    exists (take (length study_prompt_head - length ask) study_prompt_head),
      (drop (length level) study_prompt_middle
         ++ transcript_text ++ study_prompt_tail).
    rewrite Hhead at 1. rewrite Hmid at 1. by rewrite <- !app_assoc.
  - pose (intro := u"Transcript:" ++ NL ++ u"                    ---" ++ NL
                     ++ u"                    ").
    assert (study_prompt_middle
            = take (length study_prompt_middle - length intro)
                study_prompt_middle ++ intro) as Hmid by (by vm_compute).
    assert (study_prompt_tail = NL ++ drop 1 study_prompt_tail) as Htail
        by (by vm_compute).
    apply contains_spec.
    exists (study_prompt_head ++ str_of_int num_questions ++ u" "
              ++ str_lower quiz_difficulty
              ++ take (length study_prompt_middle - length intro)
                   study_prompt_middle),
      (drop 1 study_prompt_tail).
    rewrite Hmid at 1. rewrite Htail at 1. subst intro.
    by rewrite <- !app_assoc.
  - by apply contains_app_l.
  - by apply contains_app_l.
  - by apply contains_app_l.
Qed.

(** ** Pipeline *)

Section PipelineFacts.
Context {U : CaseDB}.
Implicit Types (client : Client) (file : UploadedFile) (settings : Settings)
  (w : world).

(** Unfold the monadic plumbing of a run. *)
Ltac run_script :=
  unfold try_except, lift, send, render;
  unfold mbind, mret, script_bind, script_ret;
  cbn beta iota zeta.

Lemma mime_type_resolved (name : str) :
  mime_type name = Ok (resolved_mime name).
Proof. apply mime_type_spec. Qed.

(** *** STEP 1 *)

Lemma transcribe_raises client file settings w (e : exception) :
  generate_content client
    (transcription_request file settings (resolved_mime (file_name file)))
  = Raise e →
  transcribe client file settings w
  = (Ok [],
     {| rendered :=
          rendered w ++
            [ (page_body,
               st_error (cross_mark ++ u" Error during transcription: "
                           ++ exc_str e)) ];
        sent :=
          sent w ++
            [ transcription_request file settings
                (resolved_mime (file_name file)) ] |}).
Proof.
  intros H. unfold transcribe. run_script.
  rewrite mime_type_resolved. cbn. by rewrite H.
Qed.

Lemma transcribe_no_text client file settings w :
  generate_content client
    (transcription_request file settings (resolved_mime (file_name file)))
  = Ok {| response_text := None |} →
  transcribe client file settings w
  = (Ok [],
     {| rendered :=
          rendered w ++
            [ (page_body,
               st_error (cross_mark ++ u" Error during transcription: "
                           ++ u"'NoneType' object has no attribute 'strip'")) ];
        sent :=
          sent w ++
            [ transcription_request file settings
                (resolved_mime (file_name file)) ] |}).
Proof.
  intros H. unfold transcribe. run_script.
  rewrite mime_type_resolved. cbn. by rewrite H.
Qed.

Lemma transcribe_empty client file settings w (raw : str) :
  generate_content client
    (transcription_request file settings (resolved_mime (file_name file)))
  = Ok {| response_text := Some raw |} →
  strip raw = [] →
  transcribe client file settings w
  = (Ok [],
     {| rendered :=
          rendered w ++
            [ (tab1, st_error (u"No transcript generated. Please try again.")) ];
        sent :=
          sent w ++
            [ transcription_request file settings
                (resolved_mime (file_name file)) ] |}).
Proof.
  intros H Hraw. unfold transcribe. run_script.
  rewrite mime_type_resolved. cbn. rewrite H. cbn. by rewrite Hraw.
Qed.

Lemma transcribe_text client file settings w (raw : str) :
  generate_content client
    (transcription_request file settings (resolved_mime (file_name file)))
  = Ok {| response_text := Some raw |} →
  strip raw ≠ [] →
  transcribe client file settings w
  = (Ok (strip raw),
     {| rendered :=
          rendered w ++
            [ (tab1, st_subheader ([0x1f4dc%N] ++ u" Full Transcript"));
              (tab1, st_text_area (u"Transcript") (strip raw) 400);
              (tab1,
               st_download_button ([0x1f4e5%N] ++ u" Download Transcript")
                 (strip raw)
                 (u"transcript_" ++ file_name file ++ u".txt")
                 (u"text/plain")) ];
        sent :=
          sent w ++
            [ transcription_request file settings
                (resolved_mime (file_name file)) ] |}).
Proof.
  intros H Hraw. unfold transcribe. run_script.
  rewrite mime_type_resolved. cbn. rewrite H. cbn.
  destruct (strip raw) as [|c t] eqn:E; [done|]. cbn.
  by rewrite <- !app_assoc.
Qed.

(** *** STEP 2 *)

Lemma generate_raises client file settings w (transcript_text : str)
    (e : exception) :
  generate_content client (study_request settings transcript_text) = Raise e →
  generate_study_materials client file settings transcript_text w
  = (Ok tt,
     {| rendered :=
          rendered w ++
            [ (page_body,
               st_error (cross_mark ++ u" Error during note generation: "
                           ++ exc_str e)) ];
        sent := sent w ++ [ study_request settings transcript_text ] |}).
Proof.
  intros H. unfold generate_study_materials. run_script. by rewrite H.
Qed.

Lemma generate_no_text client file settings w (transcript_text : str) :
  generate_content client (study_request settings transcript_text)
  = Ok {| response_text := None |} →
  generate_study_materials client file settings transcript_text w
  = (Ok tt,
     {| rendered :=
          rendered w ++
            [ (page_body,
               st_error (cross_mark ++ u" Error during note generation: "
                           ++ u"'NoneType' object has no attribute 'split'")) ];
        sent := sent w ++ [ study_request settings transcript_text ] |}).
Proof.
  intros H. unfold generate_study_materials. run_script. by rewrite H.
Qed.

(** With a generated block every section is written and both downloads are
    offered. *)
Lemma generate_complete client file settings w (transcript_text g : str) :
  generate_content client (study_request settings transcript_text)
  = Ok {| response_text := Some g |} →
  ∃ notes, extract g = Ok notes ∧
  generate_study_materials client file settings transcript_text w
  = (Ok tt,
     {| rendered :=
          rendered w ++
            [ (tab2, st_subheader ([0x1f4dd%N] ++ u" Lecture Summary"));
              (tab2, st_write (summary_text notes));
              (tab3, st_subheader ([0x1f50d%N] ++ u" Key Points"));
              (tab3, st_write (key_points notes));
              (tab4, st_subheader ([0x1f9e0%N] ++ u" Knowledge Quiz"));
              (tab4, st_write (quiz_text notes));
              (page_body,
               st_subheader ([0x1f4da%N] ++ u" Download Study Materials"));
              (col1,
               st_download_button ([0x1f4e5%N] ++ u" Download Complete Notes")
                 (complete_notes g)
                 (u"study_notes_" ++ file_name file ++ u".txt")
                 (u"text/plain"));
              (col2,
               st_download_button ([0x1f4cb%N] ++ u" Download Study Guide")
                 (study_guide (file_name file) transcript_text g)
                 (u"complete_study_guide_" ++ file_name file ++ u".md")
                 (u"text/markdown")) ];
        sent := sent w ++ [ study_request settings transcript_text ] |}).
Proof.
  intros H. eexists. split; [apply extract_spec|]. cbn zeta.
  unfold generate_study_materials. run_script. rewrite H.
  cbn [method response_text].
  change (str_split g (u"**")) with (Ok (split_scan (u"**") 0 [] g)).
  unfold summary_section, key_points_section, quiz_section.
  cbn beta iota. rewrite !find_section_spec. cbn. by rewrite <- !app_assoc.
Qed.

(** STEP 2 handles every exception itself. *)
Lemma generate_never_raises client file settings (t : str) w :
  ∃ w', generate_study_materials client file settings t w = (Ok tt, w').
Proof.
  unfold generate_study_materials, try_except.
  match goal with |- context [match ?body w with _ => _ end] =>
    destruct (body w) as [[[]|e] w1] end; eauto.
Qed.

(** *** The whole run *)

Lemma app_process (genai_Client : str → result Client) (key : str) file
    settings w :
  truthy key = true →
  app genai_Client key (Some file) settings w
  = process genai_Client key file settings w.
Proof. intros H. unfold app. by rewrite H. Qed.

Lemma process_transcribed (genai_Client : str → result Client) (key : str)
    client file settings (t : str) w' :
  genai_Client key = Ok client →
  transcribe client file settings start = (Ok t, w') →
  process genai_Client key file settings start
  = if truthy t
    then generate_study_materials client file settings t w'
    else (Ok tt, w').
Proof.
  intros Hc Ht. unfold process. run_script. rewrite Hc, Ht.
  destruct (truthy t); [|done].
  by destruct (generate_never_raises client file settings t w') as [w'' ->].
Qed.

(** C3.  When the transcription call raises, or its text is missing or
    empty after stripping, the run ends with the corresponding error
    message as the only element on the page and the transcription request
    as the only request sent: no request for study materials is made. *)
Theorem transcription_failure_stops (genai_Client : str → result Client)
    (gemini_api_key : str) client file settings :
  truthy gemini_api_key = true →
  genai_Client gemini_api_key = Ok client →
  let request :=
    transcription_request file settings (resolved_mime (file_name file)) in
  let run := app genai_Client gemini_api_key (Some file) settings start in
  mime_type (file_name file) = Ok (resolved_mime (file_name file)) ∧
  is_study_request request = false ∧
  (∀ e, generate_content client request = Raise e →
        run = (Ok tt,
               {| rendered :=
                    [ (page_body,
                       st_error (cross_mark ++ u" Error during transcription: "
                                   ++ exc_str e)) ];
                  sent := [ request ] |}) ∧
        study_requests (snd run) = 0%nat) ∧
  (generate_content client request = Ok {| response_text := None |} →
   run = (Ok tt,
          {| rendered :=
               [ (page_body,
                  st_error (cross_mark ++ u" Error during transcription: "
                              ++ u"'NoneType' object has no attribute 'strip'")) ];
             sent := [ request ] |}) ∧
   study_requests (snd run) = 0%nat) ∧
  (∀ raw, generate_content client request
          = Ok {| response_text := Some raw |} →
          strip raw = [] →
          run = (Ok tt,
                 {| rendered :=
                      [ (tab1,
                         st_error
                           (u"No transcript generated. Please try again.")) ];
                    sent := [ request ] |}) ∧
          study_requests (snd run) = 0%nat).
Proof.
  intros Hkey Hclient request run.
  split; [apply mime_type_resolved|]. split; [done|].
  subst run. rewrite app_process by done.
  split_and!.
  - intros e H.
    rewrite (process_transcribed _ _ _ _ _ _ _ Hclient
               (transcribe_raises _ _ _ _ _ H)).
    by cbn.
  - intros H.
    rewrite (process_transcribed _ _ _ _ _ _ _ Hclient
               (transcribe_no_text _ _ _ _ H)).
    by cbn.
  - intros raw H Hraw.
    rewrite (process_transcribed _ _ _ _ _ _ _ Hclient
               (transcribe_empty _ _ _ _ _ H Hraw)).
    by cbn.
Qed.

(** C4.  When the transcript is non-empty and the generation call raises
    (or its text is missing), the run ends normally with the transcript
    still on the page, in the text area and in its download button,
    followed by the generation error message. *)
Theorem generation_failure_keeps_transcript
    (genai_Client : str → result Client) (gemini_api_key : str) client file
    settings (raw : str) :
  truthy gemini_api_key = true →
  genai_Client gemini_api_key = Ok client →
  generate_content client
    (transcription_request file settings (resolved_mime (file_name file)))
  = Ok {| response_text := Some raw |} →
  strip raw ≠ [] →
  let transcript := strip raw in
  let shown :=
    [ (tab1, st_subheader ([0x1f4dc%N] ++ u" Full Transcript"));
      (tab1, st_text_area (u"Transcript") transcript 400);
      (tab1,
       st_download_button ([0x1f4e5%N] ++ u" Download Transcript") transcript
         (u"transcript_" ++ file_name file ++ u".txt") (u"text/plain")) ] in
  let requests :=
    [ transcription_request file settings (resolved_mime (file_name file));
      study_request settings transcript ] in
  let run := app genai_Client gemini_api_key (Some file) settings start in
  (∀ e, generate_content client (study_request settings transcript)
        = Raise e →
        run = (Ok tt,
               {| rendered :=
                    shown ++
                    [ (page_body,
                       st_error (cross_mark
                                   ++ u" Error during note generation: "
                                   ++ exc_str e)) ];
                  sent := requests |})) ∧
  (generate_content client (study_request settings transcript)
   = Ok {| response_text := None |} →
   run = (Ok tt,
          {| rendered :=
               shown ++
               [ (page_body,
                  st_error (cross_mark ++ u" Error during note generation: "
                              ++ u"'NoneType' object has no attribute 'split'")) ];
             sent := requests |})).
Proof.
  intros Hkey Hclient Ht Hraw transcript shown requests run.
  subst run. rewrite app_process by done.
  rewrite (process_transcribed _ _ _ _ _ _ _ Hclient
             (transcribe_text _ _ _ _ _ Ht Hraw)).
  replace (truthy (strip raw)) with true by (by destruct (strip raw)).
  split.
  - intros e H. by rewrite (generate_raises _ _ _ _ _ _ H).
  - intros H. by rewrite (generate_no_text _ _ _ _ _ H).
Qed.

(** A complete run, element by element. *)
Lemma process_complete (genai_Client : str → result Client)
    (gemini_api_key : str) client file settings (raw g : str) :
  truthy gemini_api_key = true →
  genai_Client gemini_api_key = Ok client →
  generate_content client
    (transcription_request file settings (resolved_mime (file_name file)))
  = Ok {| response_text := Some raw |} →
  strip raw ≠ [] →
  generate_content client (study_request settings (strip raw))
  = Ok {| response_text := Some g |} →
  ∃ notes, extract g = Ok notes ∧
  app genai_Client gemini_api_key (Some file) settings start
  = (Ok tt,
     {| rendered :=
          [ (tab1, st_subheader ([0x1f4dc%N] ++ u" Full Transcript"));
            (tab1, st_text_area (u"Transcript") (strip raw) 400);
            (tab1,
             st_download_button ([0x1f4e5%N] ++ u" Download Transcript")
               (strip raw)
               (u"transcript_" ++ file_name file ++ u".txt")
               (u"text/plain"));
            (tab2, st_subheader ([0x1f4dd%N] ++ u" Lecture Summary"));
            (tab2, st_write (summary_text notes));
            (tab3, st_subheader ([0x1f50d%N] ++ u" Key Points"));
            (tab3, st_write (key_points notes));
            (tab4, st_subheader ([0x1f9e0%N] ++ u" Knowledge Quiz"));
            (tab4, st_write (quiz_text notes));
            (page_body,
             st_subheader ([0x1f4da%N] ++ u" Download Study Materials"));
            (col1,
             st_download_button ([0x1f4e5%N] ++ u" Download Complete Notes")
               (complete_notes g)
               (u"study_notes_" ++ file_name file ++ u".txt")
               (u"text/plain"));
            (col2,
             st_download_button ([0x1f4cb%N] ++ u" Download Study Guide")
               (study_guide (file_name file) (strip raw) g)
               (u"complete_study_guide_" ++ file_name file ++ u".md")
               (u"text/markdown")) ];
        sent :=
          [ transcription_request file settings
              (resolved_mime (file_name file));
            study_request settings (strip raw) ] |}).
Proof.
  intros Hkey Hclient Ht Hraw Hg.
  rewrite app_process by done.
  rewrite (process_transcribed _ _ _ _ _ _ _ Hclient
             (transcribe_text _ _ _ _ _ Ht Hraw)).
  replace (truthy (strip raw)) with true by (by destruct (strip raw)).
  destruct (generate_complete client file settings
              {| rendered := rendered start ++
                   [ (tab1, st_subheader ([0x1f4dc%N] ++ u" Full Transcript"));
                     (tab1, st_text_area (u"Transcript") (strip raw) 400);
                     (tab1,
                      st_download_button
                        ([0x1f4e5%N] ++ u" Download Transcript") (strip raw)
                        (u"transcript_" ++ file_name file ++ u".txt")
                        (u"text/plain")) ];
                 sent := sent start ++
                   [ transcription_request file settings
                       (resolved_mime (file_name file)) ] |}
              _ _ Hg) as (notes & Hnotes & Hrun).
  exists notes. split; [done|]. by rewrite Hrun.
Qed.

(** C9.  In a complete run the "complete notes" download is the generated
    block behind the banner [LECTURE NOTES] and a blank line, and the study
    guide download is the Markdown text with the headers [# Study Guide],
    [## Transcript] and [## Generated Study Materials], the transcript
    right under the second and the generated block right under the third. *)
Theorem exports_of_complete_run (genai_Client : str → result Client)
    (gemini_api_key : str) client file settings (raw g : str) :
  truthy gemini_api_key = true →
  genai_Client gemini_api_key = Ok client →
  generate_content client
    (transcription_request file settings (resolved_mime (file_name file)))
  = Ok {| response_text := Some raw |} →
  strip raw ≠ [] →
  generate_content client (study_request settings (strip raw))
  = Ok {| response_text := Some g |} →
  let run := app genai_Client gemini_api_key (Some file) settings start in
  fst run = Ok tt ∧
  (col1,
   st_download_button ([0x1f4e5%N] ++ u" Download Complete Notes")
     (u"LECTURE NOTES" ++ NL ++ NL ++ g)
     (u"study_notes_" ++ file_name file ++ u".txt")
     (u"text/plain")) ∈ rendered (snd run) ∧
  (col2,
   st_download_button ([0x1f4cb%N] ++ u" Download Study Guide")
     (NL ++ u"# Study Guide: " ++ file_name file ++ NL ++ NL
        ++ u"## Transcript" ++ NL ++ strip raw ++ NL ++ NL
        ++ u"## Generated Study Materials" ++ NL ++ g ++ NL ++ NL
        ++ u"---" ++ NL ++ u"Generated by Lecture Voice-to-Notes Generator"
        ++ NL)
     (u"complete_study_guide_" ++ file_name file ++ u".md")
     (u"text/markdown")) ∈ rendered (snd run).
Proof.
  intros Hkey Hclient Ht Hraw Hg run.
  destruct (process_complete _ _ _ _ _ _ _ Hkey Hclient Ht Hraw Hg)
    as (notes & _ & Hrun).
  subst run. rewrite Hrun. cbn [fst snd rendered].
  split; [done|]. split.
  - apply list_elem_of_lookup. by exists 10%nat.
  - apply list_elem_of_lookup. by exists 11%nat.
Qed.

End PipelineFacts.

(** ** Sample runs *)

Lemma transcription_failure_stops_witness :
  let run :=
    @app ascii_case_db (λ _, Ok blank_client) (u"key") (Some lecture_wav)
      medium_five start in
  run = (Ok tt,
         {| rendered :=
              [ (tab1,
                 st_error (u"No transcript generated. Please try again.")) ];
            sent :=
              [ @transcription_request lecture_wav medium_five
                  (u"audio/wav") ] |}) ∧
  study_requests (snd run) = 0%nat.
Proof.
  exact (proj2 (proj2 (proj2 (proj2
           (@transcription_failure_stops ascii_case_db (λ _, Ok blank_client)
              (u"key") blank_client lecture_wav medium_five
              eq_refl eq_refl))))
           (u"   ") eq_refl eq_refl).
Defined.

Lemma generation_failure_keeps_transcript_witness :
  @app ascii_case_db (λ _, Ok transcribing_client) (u"key") (Some lecture_wav)
    medium_five start
  = (Ok tt,
     {| rendered :=
          [ (tab1, st_subheader ([0x1f4dc%N] ++ u" Full Transcript"));
            (tab1, st_text_area (u"Transcript") (u"Hello world.") 400);
            (tab1,
             st_download_button ([0x1f4e5%N] ++ u" Download Transcript")
               (u"Hello world.") (u"transcript_lecture.wav.txt")
               (u"text/plain"));
            (page_body,
             st_error (cross_mark
                         ++ u" Error during note generation: 503 UNAVAILABLE")) ];
        sent :=
          [ @transcription_request lecture_wav medium_five (u"audio/wav");
            @study_request ascii_case_db medium_five (u"Hello world.") ] |}).
Proof.
  refine (proj1
            (@generation_failure_keeps_transcript ascii_case_db
               (λ _, Ok transcribing_client) (u"key") transcribing_client
               lecture_wav medium_five (u" Hello world. ")
               eq_refl eq_refl eq_refl _)
            (APIError (u"503 UNAVAILABLE")) eq_refl).
  by vm_compute.
Defined.

Lemma exports_of_complete_run_witness :
  let run :=
    @app ascii_case_db (λ _, Ok answering_client) (u"key") (Some lecture_wav)
      medium_five start in
  let block :=
    text [ u"**SUMMARY**"; u"A short talk."; u"**KEY POINTS**";
           u"- point one"; u"**QUIZ**"; u"Q1..." ] in
  fst run = Ok tt ∧
  (col1,
   st_download_button ([0x1f4e5%N] ++ u" Download Complete Notes")
     (u"LECTURE NOTES" ++ NL ++ NL ++ block)
     (u"study_notes_lecture.wav.txt") (u"text/plain")) ∈ rendered (snd run) ∧
  (col2,
   st_download_button ([0x1f4cb%N] ++ u" Download Study Guide")
     (text [ u""; u"# Study Guide: lecture.wav"; u""; u"## Transcript";
             u"Hello world."; u""; u"## Generated Study Materials" ]
        ++ NL ++ block
        ++ text [ u""; u""; u"---";
                  u"Generated by Lecture Voice-to-Notes Generator"; u"" ])
     (u"complete_study_guide_lecture.wav.md") (u"text/markdown"))
    ∈ rendered (snd run).
Proof.
  refine (@exports_of_complete_run ascii_case_db (λ _, Ok answering_client)
            (u"key") answering_client lecture_wav medium_five
            (u"Hello world.")
            (text [ u"**SUMMARY**"; u"A short talk."; u"**KEY POINTS**";
                    u"- point one"; u"**QUIZ**"; u"Q1..." ])
            eq_refl eq_refl eq_refl _ eq_refl).
  by vm_compute.
Defined.

(** A summary fallback that truncates: 501 characters. *)
Example summary_fallback_truncates :
  summary_fallback (replicate 501 97%N) = replicate 500 97%N ++ u"...".
Proof. by vm_compute. Qed.

(** A label whose first header is the last fragment falls back, while an
    empty fragment behind the header is taken as it is. *)
Example unclosed_header_falls_back :
  @extract ascii_case_db (u"intro **SUMMARY")
  = Ok {| summary_text := u"intro **SUMMARY";
          key_points := key_points_placeholder;
          quiz_text := quiz_placeholder |} ∧
  @extract ascii_case_db (u"intro **SUMMARY**")
  = Ok {| summary_text := u"";
          key_points := key_points_placeholder;
          quiz_text := quiz_placeholder |}.
Proof. by vm_compute. Qed.

(** The end-to-end scenario: the three sections of the sample run. *)
Example end_to_end_sections :
  @extract ascii_case_db
    (text [ u"**SUMMARY**"; u"A short talk."; u"**KEY POINTS**";
            u"- point one"; u"**QUIZ**"; u"Q1..." ])
  = Ok {| summary_text := u"A short talk."; key_points := u"- point one";
          quiz_text := u"Q1..." |}.
Proof. by vm_compute. Qed.

(** * Further properties of the script *)

(** ** [strip] *)

Lemma lstrip_spec (s : str) :
  ∃ a, s = a ++ lstrip s ∧ forallb isspace a = true.
Proof.
  induction s as [|c s (a & Ha & Hsp)]; [by exists []|].
  cbn [lstrip]. destruct (isspace c) eqn:E.
  - exists (c :: a). split; [by rewrite Ha at 1 | by cbn; rewrite E].
  - by exists [].
Qed.

Lemma lstrip_head (s : str) (c : N) :
  head (lstrip s) = Some c → isspace c = false.
Proof.
  induction s as [|d s IH]; [done|]. cbn [lstrip].
  destruct (isspace d) eqn:E; [done|]. by intros [= <-].
Qed.

Lemma lstrip_nil (s : str) : lstrip s = [] ↔ forallb isspace s = true.
Proof.
  induction s as [|c s IH]; [done|]. cbn [lstrip forallb].
  destruct (isspace c); [by rewrite IH | done].
Qed.

Lemma lstrip_id (s : str) :
  (∀ c, head s = Some c → isspace c = false) → lstrip s = s.
Proof.
  destruct s as [|c s]; [done|]. intros H. cbn [lstrip].
  by rewrite (H c eq_refl).
Qed.

Lemma forallb_reverse (f : N → bool) (s : str) :
  forallb f (reverse s) = forallb f s.
Proof.
  induction s as [|c s IH]; [done|].
  rewrite reverse_cons, forallb_app, IH. cbn. by destruct (f c), (forallb f s).
Qed.

Lemma rstrip_spec (s : str) :
  ∃ b, s = rstrip s ++ b ∧ forallb isspace b = true.
Proof.
  unfold rstrip. destruct (lstrip_spec (reverse s)) as (a & Ha & Hsp).
  exists (reverse a). split.
  - rewrite <- reverse_app, <- Ha. by rewrite reverse_involutive.
  - by rewrite forallb_reverse.
Qed.

Lemma rstrip_last (s : str) (c : N) :
  last (rstrip s) = Some c → isspace c = false.
Proof. unfold rstrip. rewrite last_reverse. apply lstrip_head. Qed.

Lemma rstrip_nil (s : str) : rstrip s = [] ↔ forallb isspace s = true.
Proof.
  unfold rstrip. rewrite <- (forallb_reverse isspace s), <- lstrip_nil. split.
  - intros H. apply (f_equal reverse) in H.
    by rewrite reverse_involutive in H.
  - by intros ->.
Qed.

(** What [strip] removes is whitespace on both sides. *)
Lemma strip_spec (s : str) :
  ∃ a b, s = a ++ strip s ++ b ∧
         forallb isspace a = true ∧ forallb isspace b = true.
Proof.
  unfold strip. destruct (lstrip_spec s) as (a & Ha & Hsa).
  destruct (rstrip_spec (lstrip s)) as (b & Hb & Hsb).
  exists a, b. split; [|done]. by rewrite <- Hb.
Qed.

(** A stripped text is empty or has a visible first and last character. *)
Lemma strip_ends (s : str) (c : N) :
  head (strip s) = Some c ∨ last (strip s) = Some c → isspace c = false.
Proof.
  intros [H|H].
  - unfold strip in *. destruct (rstrip_spec (lstrip s)) as (b & Hb & _).
    apply (lstrip_head s). rewrite Hb.
    destruct (rstrip (lstrip s)); [done|]. done.
  - by apply (rstrip_last (lstrip s)).
Qed.

Lemma strip_nil (s : str) : strip s = [] ↔ forallb isspace s = true.
Proof.
  unfold strip. rewrite rstrip_nil. split.
  - intros H. destruct (lstrip_spec s) as (a & Ha & Hsa).
    rewrite Ha, forallb_app, Hsa, H. done.
  - intros H. assert (lstrip s = []) as -> by by apply lstrip_nil. done.
Qed.

Lemma contains_infix (sub a s b : str) :
  contains sub (a ++ s ++ b) = false → contains sub s = false.
Proof.
  intros H. destruct (contains sub s) eqn:E; [|done].
  apply contains_spec in E as (x & y & ->).
  rewrite <- H. symmetry. apply contains_spec.
  exists (a ++ x), (y ++ b). by rewrite <- !app_assoc.
Qed.

(** ** The fragments of [split] *)

(** While the scan holds [cur], no occurrence of the separator starts
    inside it; with that, no fragment contains the separator. *)
Lemma split_scan_no_marker (sep : str) (s : str) :
  sep ≠ [] →
  ∀ (k : nat) (cur : str),
    cur = [] ∨
      (k = 0%nat ∧
       ∀ a b, reverse cur ++ s = a ++ sep ++ b → (length cur ≤ length a)%nat) →
    Forall (λ f, contains sep f = false) (split_scan sep k cur s).
Proof.
  intros Hsep.
  assert (∀ cur t,
            (∀ a b, reverse cur ++ t = a ++ sep ++ b →
                    (length cur ≤ length a)%nat) →
            contains sep (reverse cur) = false) as Hclosed.
  { intros cur t Inv. destruct (contains sep (reverse cur)) eqn:E; [|done].
    apply contains_spec in E as (a & b & E).
    specialize (Inv a (b ++ t)). rewrite E, <- !app_assoc in Inv.
    specialize (Inv eq_refl). apply (f_equal length) in E.
    rewrite length_reverse, !length_app in E.
    destruct sep; [done|]. simpl in E. lia. }
  induction s as [|c s IH]; intros k cur H.
  - cbn [split_scan]. repeat constructor. destruct H as [-> | [_ Inv]].
    + apply (Hclosed [] []). intros; simpl; lia.
    + by apply (Hclosed cur []).
  - cbn [split_scan]. destruct k as [|k].
    + assert (∀ a b, reverse cur ++ c :: s = a ++ sep ++ b →
                     (length cur ≤ length a)%nat) as Inv.
      { destruct H as [-> | [_ Inv]]; [intros; simpl; lia | done]. }
      destruct (startswith (c :: s) sep) eqn:E.
      * constructor; [by apply (Hclosed cur (c :: s)) | apply IH; by left].
      * apply IH. right. split; [done|]. intros a b Hab.
        rewrite reverse_cons, <- app_assoc in Hab. cbn [app] in Hab.
        pose proof (Inv a b Hab) as Hle. cbn [length].
        destruct (decide (length cur = length a)) as [Heq|]; [|lia].
        apply app_inj_1 in Hab as [_ Hab];
          [|by rewrite length_reverse].
        assert (startswith (c :: s) sep = true) as Htrue
            by (apply startswith_spec; eauto).
        congruence.
    + destruct H as [-> | [? _]]; [|done]. apply IH. by left.
Qed.

(** The fragments of [s.split(sep)] lose nothing and hold no separator:
    joined by [sep] they give [s] back, and none of them contains [sep]. *)
Theorem str_split_fragments (s sep : str) (parts : list str) :
  str_split s sep = Ok parts →
  join sep parts = s ∧ Forall (λ f, contains sep f = false) parts.
Proof.
  intros H. split; [by apply join_str_split|].
  unfold str_split in H. destruct sep as [|c sep']; [done|].
  injection H as <-. apply split_scan_no_marker; [done | by left].
Qed.

Lemma str_split_fragments_witness :
  join (u"**") [u"a"; u"*b"; u""] = u"a***b**" ∧
  Forall (λ f, contains (u"**") f = false) [u"a"; u"*b"; u""].
Proof.
  apply (str_split_fragments (u"a***b**") (u"**") [u"a"; u"*b"; u""]).
  by vm_compute.
Defined.

(** ** More on the SectionExtractor *)

Lemma section_after_head (U : CaseDB) (label x y : str) (l : list str) :
  contains label (str_upper x) = true →
  section_after label (x :: y :: l) = Some (strip y).
Proof.
  intros H. unfold section_after. cbn [list_find].
  by rewrite decide_True by done.
Qed.

(** A section that is not a fallback is a stripped fragment: it holds no
    [**] and neither starts nor ends with whitespace. *)
Theorem extract_sections_clean (U : CaseDB) (raw : str) :
  ∃ sections notes,
    str_split raw (u"**") = Ok sections ∧ extract raw = Ok notes ∧
    ∀ label field,
      (label, field) ∈ [ (u"SUMMARY", summary_text notes);
                         (u"KEY POINTS", key_points notes);
                         (u"QUIZ", quiz_text notes) ] →
      falls_back label sections ∨
      (contains (u"**") field = false ∧
       ∀ c, head field = Some c ∨ last field = Some c → isspace c = false).
Proof.
  exists (split_scan (u"**") 0 [] raw). eexists.
  split; [reflexivity|]. split; [apply extract_spec|]. cbn zeta.
  assert (∀ label,
            falls_back label (split_scan (u"**") 0 [] raw) ∨
            ∃ next, next ∈ split_scan (u"**") 0 [] raw ∧
                    section_after label (split_scan (u"**") 0 [] raw)
                    = Some (strip next)) as Hcases.
  { intros label.
    destruct (section_after_cases label (split_scan (u"**") 0 [] raw))
      as [(i & next & _ & Hn & ->) | [_ Hfb]]; [right | by left].
    exists next. split; [by eapply list_elem_of_lookup_2 | done]. }
  assert (∀ next, next ∈ split_scan (u"**") 0 [] raw →
            contains (u"**") (strip next) = false ∧
            ∀ c, head (strip next) = Some c ∨ last (strip next) = Some c →
                 isspace c = false) as Hclean.
  { intros next Hnext. split; [|apply strip_ends].
    destruct (strip_spec next) as (a & b & Hab & _).
    apply (contains_infix _ a _ b). rewrite <- Hab.
    pose proof (split_scan_no_marker (u"**") raw ltac:(done) 0 []
                  (or_introl eq_refl)) as HF.
    rewrite Forall_forall in HF. by apply HF. }
  intros label field Hin.
  cbn [summary_text key_points quiz_text] in Hin.
  rewrite !elem_of_cons, elem_of_nil in Hin.
  destruct Hin as [[= -> ->] | [[= -> ->] | [[= -> ->] | []]]];
    (match goal with
     | |- falls_back ?l _ ∨ _ =>
         destruct (Hcases l) as [Hfb | (next & Hnext & Hs)]
     end; [by left | right; rewrite Hs; by apply Hclean]).
Qed.

(** A block in the layout the prompt asks for is taken apart again: with no
    asterisk in the text before the first header and in the first two
    bodies, no [**] in the last body, and no label mentioned ahead of its
    header, the three sections are the three bodies, stripped. *)
Theorem extract_labelled_block (U : CaseDB) (pre s k q : str) :
  ascii_faithful U →
  42%N ∉ pre → 42%N ∉ s → 42%N ∉ k → contains (u"**") q = false →
  contains (u"SUMMARY") (str_upper pre) = false →
  contains (u"KEY POINTS") (str_upper pre) = false →
  contains (u"QUIZ") (str_upper pre) = false →
  contains (u"KEY POINTS") (str_upper s) = false →
  contains (u"QUIZ") (str_upper s) = false →
  contains (u"QUIZ") (str_upper k) = false →
  extract (pre ++ u"**SUMMARY**" ++ s ++ u"**KEY POINTS**" ++ k
             ++ u"**QUIZ**" ++ q)
  = Ok {| summary_text := strip s; key_points := strip k;
          quiz_text := strip q |}.
Proof.
  intros HU Hpre Hs Hk Hq Ps Pk Pq Sk Sq Kq.
  assert (∀ label hdr : str, forallb is_ascii hdr = true →
            contains label (str_upper hdr)
            = contains label (ascii_upper <$> hdr)) as Hup.
  { intros label hdr Hh. by destruct (HU hdr Hh) as [-> _]. }
  rewrite extract_spec. cbn zeta.
  replace (pre ++ u"**SUMMARY**" ++ s ++ u"**KEY POINTS**" ++ k
             ++ u"**QUIZ**" ++ q)
    with (pre ++ [42%N; 42%N] ++ u"SUMMARY" ++ [42%N; 42%N] ++ s
            ++ [42%N; 42%N] ++ u"KEY POINTS" ++ [42%N; 42%N] ++ k
            ++ [42%N; 42%N] ++ u"QUIZ" ++ [42%N; 42%N] ++ q)
    by done.
  change (u"**") with [42%N; 42%N].
  rewrite (split_scan_prefix 42 [42%N] [] pre) by done.
  rewrite (split_scan_prefix 42 [42%N] [] (u"SUMMARY")) by compute_done.
  rewrite (split_scan_prefix 42 [42%N] [] s) by done.
  rewrite (split_scan_prefix 42 [42%N] [] (u"KEY POINTS")) by compute_done.
  rewrite (split_scan_prefix 42 [42%N] [] k) by done.
  rewrite (split_scan_prefix 42 [42%N] [] (u"QUIZ")) by compute_done.
  rewrite (split_scan_no_sep [42%N; 42%N] [] q) by done.
  change (reverse [] ++ pre) with pre. change (reverse [] ++ s) with s.
  change (reverse [] ++ k) with k. change (reverse [] ++ q) with q.
  change (reverse [] ++ u"SUMMARY") with (u"SUMMARY").
  change (reverse [] ++ u"KEY POINTS") with (u"KEY POINTS").
  change (reverse [] ++ u"QUIZ") with (u"QUIZ").
  f_equal. f_equal.
  - rewrite section_after_cons by done.
    by rewrite (section_after_head U) by by rewrite Hup.
  - rewrite section_after_cons by done.
    rewrite section_after_cons by by rewrite Hup.
    rewrite section_after_cons by done.
    by rewrite (section_after_head U) by by rewrite Hup.
  - rewrite section_after_cons by done.
    rewrite section_after_cons by by rewrite Hup.
    rewrite section_after_cons by done.
    rewrite section_after_cons by by rewrite Hup.
    rewrite section_after_cons by done.
    by rewrite (section_after_head U) by by rewrite Hup.
Qed.

Lemma extract_labelled_block_witness :
  @extract ascii_case_db
    (u"Here you go." ++ NL ++ u"**SUMMARY**" ++ u": A short talk." ++ NL
       ++ u"**KEY POINTS**" ++ NL ++ u"- point one" ++ NL
       ++ u"**QUIZ**" ++ NL ++ u"Q1... (A) *maybe*")
  = Ok {| summary_text := u": A short talk."; key_points := u"- point one";
          quiz_text := u"Q1... (A) *maybe*" |}.
Proof.
  refine (extract_labelled_block ascii_case_db (u"Here you go." ++ NL)
            (u": A short talk." ++ NL) (NL ++ u"- point one" ++ NL)
            (NL ++ u"Q1... (A) *maybe*")
            ascii_case_db_faithful _ _ _ _ _ _ _ _ _ _);
    first [ compute_done | by vm_compute ].
Defined.

(** Take a block made of a text without asterisk whose upper-cased form
    holds neither [SUMMARY] nor [KEY POINTS], then [**SUMMARY**], then a
    body without asterisk whose upper-cased form holds [KEY POINTS], then
    [**KEY POINTS**] and anything.  Its summary is the stripped body, and
    its key points section is not the text under the key points header but
    that header's own text, [KEY POINTS]: the fragment right behind the
    first mention. *)
Theorem label_mentioned_early_takes_header (U : CaseDB) (pre s rest : str) :
  ascii_faithful U →
  42%N ∉ pre → 42%N ∉ s →
  contains (u"SUMMARY") (str_upper pre) = false →
  contains (u"KEY POINTS") (str_upper pre) = false →
  contains (u"KEY POINTS") (str_upper s) = true →
  ∃ notes,
    extract (pre ++ u"**SUMMARY**" ++ s ++ u"**KEY POINTS**" ++ rest)
    = Ok notes ∧
    summary_text notes = strip s ∧ key_points notes = u"KEY POINTS".
Proof.
  intros HU Hpre Hs Ps Pk Sk.
  assert (∀ label hdr : str, forallb is_ascii hdr = true →
            contains label (str_upper hdr)
            = contains label (ascii_upper <$> hdr)) as Hup.
  { intros label hdr Hh. by destruct (HU hdr Hh) as [-> _]. }
  eexists. split; [apply extract_spec|]. cbn zeta.
  cbn [summary_text key_points].
  replace (pre ++ u"**SUMMARY**" ++ s ++ u"**KEY POINTS**" ++ rest)
    with (pre ++ [42%N; 42%N] ++ u"SUMMARY" ++ [42%N; 42%N] ++ s
            ++ [42%N; 42%N] ++ u"KEY POINTS" ++ [42%N; 42%N] ++ rest)
    by done.
  change (u"**") with [42%N; 42%N].
  rewrite (split_scan_prefix 42 [42%N] [] pre) by done.
  rewrite (split_scan_prefix 42 [42%N] [] (u"SUMMARY")) by compute_done.
  rewrite (split_scan_prefix 42 [42%N] [] s) by done.
  rewrite (split_scan_prefix 42 [42%N] [] (u"KEY POINTS")) by compute_done.
  change (reverse [] ++ pre) with pre. change (reverse [] ++ s) with s.
  change (reverse [] ++ u"SUMMARY") with (u"SUMMARY").
  change (reverse [] ++ u"KEY POINTS") with (u"KEY POINTS").
  split.
  - rewrite section_after_cons by done.
    by rewrite (section_after_head U) by by rewrite Hup.
  - rewrite section_after_cons by done.
    rewrite section_after_cons by by rewrite Hup.
    rewrite (section_after_head U) by done. by vm_compute.
Qed.

Lemma label_mentioned_early_takes_header_witness :
  ∃ notes,
    @extract ascii_case_db
      (u"**SUMMARY**" ++ u" The key points of the talk are few. "
         ++ u"**KEY POINTS**" ++ u" - point one")
    = Ok notes ∧
    summary_text notes = u"The key points of the talk are few." ∧
    key_points notes = u"KEY POINTS".
Proof.
  refine (label_mentioned_early_takes_header ascii_case_db []
            (u" The key points of the talk are few. ") (u" - point one")
            ascii_case_db_faithful _ _ _ _ _);
    first [ compute_done | by vm_compute ].
Defined.

(** The fallback summary keeps the first 500 characters of the block and
    never has more than 503; a block of 501 or more characters always
    gives exactly 503, so for 501 and 502 it is longer than the block. *)
Theorem summary_fallback_length (raw : str) :
  (length (summary_fallback raw) ≤ 503)%nat ∧
  take 500 (summary_fallback raw) = take 500 raw ∧
  ((length raw ≤ 500)%nat → length (summary_fallback raw) = length raw) ∧
  ((500 < length raw)%nat → length (summary_fallback raw) = 503%nat).
Proof.
  unfold summary_fallback. cases_Z.
  - assert (length (take 500 raw ++ u"...") = 503%nat) as Hlen.
    { rewrite length_app, length_take. change (length (u"...")) with 3%nat.
      lia. }
    split_and!; [lia | | lia | done].
    rewrite take_app_le by (rewrite length_take; lia).
    by rewrite take_take.
  - split_and!; [lia | done | done | lia].
Qed.

(** ** More on the MimeResolver *)

(** Whatever the file name, the type handed to the service is one of the
    six audio types of the table. *)
Theorem mime_type_range (U : CaseDB) (name : str) :
  ∃ m, mime_type name = Ok m ∧
       m ∈ [ u"audio/mp3"; u"audio/mpeg"; u"audio/mp4"; u"audio/wav";
             u"audio/webm"; u"audio/aac" ].
Proof.
  rewrite mime_type_spec. eexists. split; [done|].
  destruct (mime_type_map !! str_lower (last_component name)) as [v|] eqn:E;
    cbn [default]; [|compute_done].
  apply elem_of_list_to_map_2 in E. revert E. unfold mime_table.
  rewrite !elem_of_cons, elem_of_nil.
  intros H. repeat (destruct H as [H|H]; [injection H as _ ->; compute_done|]).
  done.
Qed.

Lemma split_scan_fmap (f : N → N) (d : N) (cur s : str) :
  (∀ c, f c = d ↔ c = d) →
  split_scan [d] 0 (f <$> cur) (f <$> s)
  = (λ part : str, f <$> part) <$> split_scan [d] 0 cur s.
Proof.
  intros Hf. revert cur. induction s as [|c s IH]; intros cur.
  - cbn. by rewrite fmap_reverse.
  - cbn [fmap list_fmap split_scan startswith length Nat.pred].
    rewrite !andb_true_r.
    replace (d =? f c)%N with (d =? c)%N.
    + destruct (d =? c)%N.
      * cbn [fmap list_fmap]. rewrite fmap_reverse. f_equal.
        apply (IH []).
      * apply (IH (c :: cur)).
    + destruct (N.eqb_spec d c) as [->|Hne].
      * symmetry. apply N.eqb_eq. symmetry. by apply Hf.
      * symmetry. apply N.eqb_neq. intros Heq. apply Hne. symmetry.
        by apply Hf.
Qed.

Lemma last_component_fmap (f : N → N) (name : str) :
  (∀ c, f c = 46%N ↔ c = 46%N) →
  last_component (f <$> name) = f <$> last_component name.
Proof.
  intros Hf. unfold last_component. change (u".") with [46%N].
  pose proof (split_scan_fmap f 46 [] name Hf) as H.
  change (f <$> []) with (@nil N) in H. rewrite H, fmap_last.
  by destruct (last (split_scan [46%N] 0 [] name)).
Qed.

Lemma ascii_lower_dot (c : N) : ascii_lower c = 46%N ↔ c = 46%N.
Proof.
  unfold ascii_lower.
  destruct (N.leb_spec 65 c), (N.leb_spec c 90); cbn [andb]; lia.
Qed.

(** Two ASCII file names that differ only in the case of their letters
    resolve to the same type. *)
Theorem mime_type_ignores_case (U : CaseDB) (name1 name2 : str) :
  ascii_faithful U →
  forallb is_ascii name1 = true → forallb is_ascii name2 = true →
  ascii_lower <$> name1 = ascii_lower <$> name2 →
  mime_type name1 = mime_type name2.
Proof.
  intros HU H1 H2 Heq.
  rewrite (mime_type_ascii U name1), (mime_type_ascii U name2) by done.
  rewrite !mime_type_spec. cbn [str_lower ascii_case_db].
  rewrite <- !(last_component_fmap ascii_lower) by apply ascii_lower_dot.
  by rewrite Heq.
Qed.

Lemma mime_type_ignores_case_witness :
  @mime_type ascii_case_db (u"Lecture.MP3")
  = @mime_type ascii_case_db (u"lecture.mp3").
Proof.
  apply (mime_type_ignores_case ascii_case_db (u"Lecture.MP3")
           (u"lecture.mp3") ascii_case_db_faithful);
    reflexivity.
Defined.

(** Only the text behind the last ['.'] counts: the name resolves like that
    text alone.  When nothing follows the last ['.'], the type is the
    default. *)
Theorem mime_type_last_dot (U : CaseDB) (stem ext : str) :
  46%N ∉ ext →
  mime_type (stem ++ u"." ++ ext) = mime_type ext ∧
  (ascii_faithful U → ext = [] →
   mime_type (stem ++ u"." ++ ext) = Ok (u"audio/mpeg")).
Proof.
  intros Hext.
  assert (mime_type (stem ++ u"." ++ ext) = mime_type ext) as Heq.
  { rewrite !mime_type_spec.
    by rewrite last_component_dot, last_component_dotless. }
  split; [done|]. intros HU ->. rewrite Heq, mime_type_spec.
  rewrite last_component_dotless by done.
  destruct (HU [] eq_refl) as [_ ->]. by vm_compute.
Qed.

Lemma mime_type_last_dot_witness :
  @mime_type ascii_case_db (u"talk.2024.tar" ++ u"." ++ u"wav")
  = @mime_type ascii_case_db (u"wav").
Proof.
  refine (proj1 (mime_type_last_dot ascii_case_db (u"talk.2024.tar")
                   (u"wav") _)).
  compute_done.
Defined.

(** The uploader's list and the table name the same extensions: an
    extension is offered by the uploader exactly when the table has an entry
    for it, so a file with an offered extension, in any letter case, gets
    its type from an entry of the table. *)
Theorem accepted_types_have_entries (U : CaseDB) :
  (∀ e : str, e ∈ accepted_types ↔ is_Some (mime_type_map !! e)) ∧
  (ascii_faithful U →
   ∀ stem ext : str,
     46%N ∉ ext → forallb is_ascii ext = true →
     ascii_lower <$> ext ∈ accepted_types →
     ∃ m, (ascii_lower <$> ext, m) ∈ mime_table ∧
          mime_type (stem ++ u"." ++ ext) = Ok m).
Proof.
  assert (∀ e : str, e ∈ accepted_types ↔ is_Some (mime_type_map !! e)) as Hacc.
  { intros e. split.
    - unfold accepted_types. rewrite !elem_of_cons, elem_of_nil.
      intros H.
      repeat (destruct H as [->|H]; [apply not_eq_None_Some; by vm_compute|]).
      done.
    - intros [v Hv]. apply elem_of_list_to_map_2 in Hv. revert Hv.
      unfold mime_table. rewrite !elem_of_cons, elem_of_nil.
      intros H.
      repeat (destruct H as [H|H]; [injection H as -> _; compute_done|]).
      done. }
  split; [done|]. intros HU stem ext Hdot Hascii Hin.
  apply Hacc in Hin as [m Hm]. exists m.
  split; [by apply elem_of_list_to_map_2|].
  rewrite mime_type_spec, last_component_dot by done.
  destruct (HU ext Hascii) as [_ ->]. by rewrite Hm.
Qed.

(** ** More on the pipeline *)

Section RunFacts.
Context {U : CaseDB}.
Implicit Types (client : Client) (file : UploadedFile) (settings : Settings)
  (w : world).

Lemma process_no_client (genai_Client : str → result Client) (key : str) file
    settings w (e : exception) :
  genai_Client key = Raise e →
  process genai_Client key file settings w
  = (Ok tt,
     {| rendered :=
          rendered w ++
            [ (page_body,
               st_error (cross_mark ++ u" Error initializing Gemini client: "
                           ++ exc_str e));
              (page_body,
               st_info (u"Please check your API key and try again.")) ];
        sent := sent w |}).
Proof.
  intros H. unfold process, try_except, lift, render.
  unfold mbind, mret, script_bind, script_ret. cbn beta iota zeta.
  rewrite H. cbn. by rewrite <- app_assoc.
Qed.

(** STEP 2 sends exactly its one request, whatever the service answers,
    and adds no text area to the page. *)
Lemma generate_outcome client file settings (t : str) w :
  ∃ r,
    generate_study_materials client file settings t w
    = (Ok tt,
       {| rendered := rendered w ++ r;
          sent := sent w ++ [ study_request settings t ] |}) ∧
    Forall (λ ce, ∀ l v h, ce.2 ≠ st_text_area l v h) r.
Proof.
  destruct (generate_content client (study_request settings t))
    as [[[g|]]|e] eqn:E.
  - destruct (generate_complete client file settings w t g E)
      as (notes & _ & ->).
    eexists. split; [reflexivity|]. by repeat constructor.
  - rewrite (generate_no_text _ _ _ _ _ E).
    eexists. split; [reflexivity|]. by repeat constructor.
  - rewrite (generate_raises _ _ _ _ _ _ E).
    eexists. split; [reflexivity|]. by repeat constructor.
Qed.

(** The three ways a run with a key and a file can go. *)
Lemma process_outcomes (genai_Client : str → result Client) (key : str) file
    settings :
  let request :=
    transcription_request file settings (resolved_mime (file_name file)) in
  let run := process genai_Client key file settings start in
  (∃ e, genai_Client key = Raise e ∧
        run = (Ok tt,
               {| rendered :=
                    [ (page_body,
                       st_error (cross_mark
                                   ++ u" Error initializing Gemini client: "
                                   ++ exc_str e));
                      (page_body,
                       st_info (u"Please check your API key and try again.")) ];
                  sent := [] |})) ∨
  (∃ client c msg,
      genai_Client key = Ok client ∧
      run = (Ok tt,
             {| rendered := [ (c, st_error msg) ]; sent := [ request ] |})) ∨
  (∃ client raw r,
      genai_Client key = Ok client ∧
      generate_content client request = Ok {| response_text := Some raw |} ∧
      strip raw ≠ [] ∧
      Forall (λ ce, ∀ l v h, ce.2 ≠ st_text_area l v h) r ∧
      run = (Ok tt,
             {| rendered :=
                  [ (tab1, st_subheader ([0x1f4dc%N] ++ u" Full Transcript"));
                    (tab1, st_text_area (u"Transcript") (strip raw) 400);
                    (tab1,
                     st_download_button
                       ([0x1f4e5%N] ++ u" Download Transcript") (strip raw)
                       (u"transcript_" ++ file_name file ++ u".txt")
                       (u"text/plain")) ] ++ r;
                sent := [ request; study_request settings (strip raw) ] |})).
Proof.
  intros request run. subst run.
  destruct (genai_Client key) as [client|e] eqn:Hc.
  - right.
    destruct (generate_content client request) as [[[raw|]]|e] eqn:E.
    + destruct (decide (strip raw = [])) as [Hraw|Hraw].
      * left. exists client. eexists _, _. split; [done|].
        rewrite (process_transcribed _ _ _ _ _ _ _ Hc
                   (transcribe_empty _ _ _ _ _ E Hraw)).
        reflexivity.
      * right. exists client, raw.
        rewrite (process_transcribed _ _ _ _ _ _ _ Hc
                   (transcribe_text _ _ _ _ _ E Hraw)).
        replace (truthy (strip raw)) with true by (by destruct (strip raw)).
        match goal with
        | |- context [generate_study_materials client file settings ?t ?w] =>
            destruct (generate_outcome client file settings t w)
              as (r & -> & Hr)
        end.
        exists r. split_and!; [done..|]. cbn [rendered sent app].
        reflexivity.
    + left. exists client. eexists _, _. split; [done|].
      rewrite (process_transcribed _ _ _ _ _ _ _ Hc
                 (transcribe_no_text _ _ _ _ E)).
      reflexivity.
    + left. exists client. eexists _, _. split; [done|].
      rewrite (process_transcribed _ _ _ _ _ _ _ Hc
                 (transcribe_raises _ _ _ _ _ E)).
      reflexivity.
  - left. exists e. split; [done|]. by rewrite (process_no_client _ _ _ _ _ e).
Qed.

Lemma welcome_run (key : str) (uploaded_file : option UploadedFile) :
  welcome key uploaded_file start
  = (Ok tt,
     {| rendered :=
          (if truthy key then []
           else [ (page_body,
                   st_warning ([0x1f511%N]
                     ++ u" Please enter your Gemini API key in the sidebar to get started.")) ])
          ++ (if uploaded_file is Some _ then []
              else [ (page_body,
                      st_warning ([0x1f4c1%N]
                        ++ u" Please upload an audio file to begin processing.")) ]);
        sent := [] |}).
Proof. by destruct (truthy key) eqn:E, uploaded_file; unfold welcome; cbn; rewrite ?E. Qed.

(** When [genai.Client] raises, the run ends with the initialisation error
    and the hint to check the key, and nothing is sent to the service. *)
Theorem client_failure_sends_nothing (genai_Client : str → result Client)
    (gemini_api_key : str) file settings (e : exception) :
  truthy gemini_api_key = true →
  genai_Client gemini_api_key = Raise e →
  app genai_Client gemini_api_key (Some file) settings start
  = (Ok tt,
     {| rendered :=
          [ (page_body,
             st_error (cross_mark ++ u" Error initializing Gemini client: "
                         ++ exc_str e));
            (page_body,
             st_info (u"Please check your API key and try again.")) ];
        sent := [] |}).
Proof.
  intros Hkey He. rewrite app_process by done.
  by rewrite (process_no_client _ _ _ _ _ e).
Qed.

(** Without a key or without a file the run sends nothing, does not depend
    on the client constructor, and warns about exactly what is missing. *)
Theorem missing_input_sends_nothing (genai_Client : str → result Client)
    (gemini_api_key : str) (uploaded_file : option UploadedFile) settings :
  truthy gemini_api_key = false ∨ uploaded_file = None →
  let run := app genai_Client gemini_api_key uploaded_file settings start in
  fst run = Ok tt ∧ sent (snd run) = [] ∧
  (∀ other_Client,
     app other_Client gemini_api_key uploaded_file settings start = run) ∧
  ((page_body,
    st_warning ([0x1f511%N]
      ++ u" Please enter your Gemini API key in the sidebar to get started."))
     ∈ rendered (snd run) ↔ truthy gemini_api_key = false) ∧
  ((page_body,
    st_warning ([0x1f4c1%N]
      ++ u" Please upload an audio file to begin processing."))
     ∈ rendered (snd run) ↔ uploaded_file = None).
Proof.
  intros H run.
  assert (∀ g, app g gemini_api_key uploaded_file settings start
               = welcome gemini_api_key uploaded_file start) as Happ.
  { intros g. unfold app. destruct uploaded_file as [file|]; [|done].
    destruct H as [-> | ?]; done. }
  subst run. rewrite Happ, welcome_run. cbn [fst snd rendered sent].
  split_and!; [done | done | intros g; by rewrite Happ, welcome_run | |].
  - destruct (truthy gemini_api_key), uploaded_file;
      simpl; rewrite ?elem_of_cons, ?elem_of_nil; intuition congruence.
  - destruct (truthy gemini_api_key), uploaded_file;
      simpl; rewrite ?elem_of_cons, ?elem_of_nil; intuition congruence.
Qed.

(** No exception leaves the script, and the requests of a run are, in
    order: none; or the transcription request alone; or the transcription
    request followed by one request for study materials built from the
    stripped, non-empty transcript that the service returned. *)
Theorem app_request_discipline (genai_Client : str → result Client)
    (gemini_api_key : str) (uploaded_file : option UploadedFile) settings :
  let run := app genai_Client gemini_api_key uploaded_file settings start in
  fst run = Ok tt ∧
  (sent (snd run) = [] ∨
   ∃ file client,
     uploaded_file = Some file ∧ truthy gemini_api_key = true ∧
     genai_Client gemini_api_key = Ok client ∧
     let request :=
       transcription_request file settings (resolved_mime (file_name file)) in
     (sent (snd run) = [ request ] ∨
      ∃ raw,
        generate_content client request
        = Ok {| response_text := Some raw |} ∧
        strip raw ≠ [] ∧
        sent (snd run) = [ request; study_request settings (strip raw) ])).
Proof.
  intros run. subst run.
  destruct uploaded_file as [file|];
    [destruct (truthy gemini_api_key) eqn:Hkey|].
  - rewrite app_process by done.
    destruct (process_outcomes genai_Client gemini_api_key file settings)
      as [(e & _ & ->) | [(client & c & msg & Hc & ->)
                         | (client & raw & r & Hc & Hg & Hraw & _ & ->)]];
      cbn [fst snd sent]; (split; [done|]).
    + by left.
    + right. exists file, client. split_and!; [done..|]. by left.
    + right. exists file, client. split_and!; [done..|]. right. by exists raw.
  - unfold app. rewrite Hkey, welcome_run. split; [done | by left].
  - unfold app. rewrite welcome_run. split; [done | by left].
Qed.

(** A transcription made of whitespace only counts as no transcript: the
    run stops with the "No transcript generated" message.  With any other
    character in it, the run goes on to ask for study materials. *)
Theorem blank_transcript_is_failure (genai_Client : str → result Client)
    (gemini_api_key : str) client file settings (raw : str) :
  truthy gemini_api_key = true →
  genai_Client gemini_api_key = Ok client →
  generate_content client
    (transcription_request file settings (resolved_mime (file_name file)))
  = Ok {| response_text := Some raw |} →
  let request :=
    transcription_request file settings (resolved_mime (file_name file)) in
  let run := app genai_Client gemini_api_key (Some file) settings start in
  (forallb isspace raw = true →
   run = (Ok tt,
          {| rendered :=
               [ (tab1,
                  st_error (u"No transcript generated. Please try again.")) ];
             sent := [ request ] |})) ∧
  (forallb isspace raw = false →
   sent (snd run) = [ request; study_request settings (strip raw) ]).
Proof.
  intros Hkey Hc Hg request run. subst run. rewrite app_process by done.
  split.
  - intros Hsp%strip_nil.
    by rewrite (process_transcribed _ _ _ _ _ _ _ Hc
                  (transcribe_empty _ _ _ _ _ Hg Hsp)).
  - intros Hsp.
    assert (strip raw ≠ []) as Hraw.
    { intros Hnil%strip_nil. congruence. }
    rewrite (process_transcribed _ _ _ _ _ _ _ Hc
               (transcribe_text _ _ _ _ _ Hg Hraw)).
    replace (truthy (strip raw)) with true by (by destruct (strip raw)).
    match goal with
    | |- context [generate_study_materials client file settings ?t ?w] =>
        destruct (generate_outcome client file settings t w) as (r & -> & _)
    end.
    done.
Qed.

(** Whenever a run shows a transcript, it is the text the service returned
    without its surrounding whitespace: not empty, and with a first and a
    last character that are not whitespace. *)
Theorem transcript_shown_is_trimmed (genai_Client : str → result Client)
    (gemini_api_key : str) (uploaded_file : option UploadedFile) settings
    (c : container) (label value : str) (height : Z) :
  (c, st_text_area label value height)
    ∈ rendered (snd (app genai_Client gemini_api_key uploaded_file settings
                       start)) →
  value ≠ [] ∧
  (∀ ch, head value = Some ch ∨ last value = Some ch → isspace ch = false) ∧
  ∃ file client raw before after,
    uploaded_file = Some file ∧
    genai_Client gemini_api_key = Ok client ∧
    generate_content client
      (transcription_request file settings (resolved_mime (file_name file)))
    = Ok {| response_text := Some raw |} ∧
    raw = before ++ value ++ after ∧
    forallb isspace before = true ∧ forallb isspace after = true.
Proof.
  destruct uploaded_file as [file|];
    [destruct (truthy gemini_api_key) eqn:Hkey|].
  - rewrite app_process by done.
    destruct (process_outcomes genai_Client gemini_api_key file settings)
      as [(e & _ & ->) | [(client & c' & msg & Hc & ->)
                         | (client & raw & r & Hc & Hg & Hraw & Hr & ->)]];
      cbn [snd rendered].
    + rewrite !elem_of_cons, elem_of_nil. intuition congruence.
    + rewrite !elem_of_cons, elem_of_nil. intuition congruence.
    + rewrite elem_of_app, !elem_of_cons, elem_of_nil.
      intros [[H | [H | [H | []]]] | H]; [done | | done |].
      * injection H as -> -> -> ->.
        split; [done|]. split; [apply strip_ends|].
        destruct (strip_spec raw) as (a & b & Hab & Ha & Hb).
        by exists file, client, raw, a, b.
      * rewrite Forall_forall in Hr. by destruct (Hr _ H label value height).
  - unfold app. rewrite Hkey, welcome_run, Hkey. cbn [snd rendered].
    simpl. rewrite ?elem_of_cons, ?elem_of_nil. intuition congruence.
  - unfold app. rewrite welcome_run. cbn [snd rendered].
    destruct (truthy gemini_api_key); simpl;
      rewrite ?elem_of_cons, ?elem_of_nil; intuition congruence.
Qed.

(** A complete run, in order: the transcript with its download in the first
    tab, the three sections that [extract] gives for the generated block in
    the other three tabs, then the two downloads; the two requests sent are
    the transcription request and the request built from the transcript. *)
Theorem complete_run_page (genai_Client : str → result Client)
    (gemini_api_key : str) client file settings (raw g : str) :
  truthy gemini_api_key = true →
  genai_Client gemini_api_key = Ok client →
  generate_content client
    (transcription_request file settings (resolved_mime (file_name file)))
  = Ok {| response_text := Some raw |} →
  strip raw ≠ [] →
  generate_content client (study_request settings (strip raw))
  = Ok {| response_text := Some g |} →
  ∃ notes, extract g = Ok notes ∧
  app genai_Client gemini_api_key (Some file) settings start
  = (Ok tt,
     {| rendered :=
          [ (tab1, st_subheader ([0x1f4dc%N] ++ u" Full Transcript"));
            (tab1, st_text_area (u"Transcript") (strip raw) 400);
            (tab1,
             st_download_button ([0x1f4e5%N] ++ u" Download Transcript")
               (strip raw)
               (u"transcript_" ++ file_name file ++ u".txt")
               (u"text/plain"));
            (tab2, st_subheader ([0x1f4dd%N] ++ u" Lecture Summary"));
            (tab2, st_write (summary_text notes));
            (tab3, st_subheader ([0x1f50d%N] ++ u" Key Points"));
            (tab3, st_write (key_points notes));
            (tab4, st_subheader ([0x1f9e0%N] ++ u" Knowledge Quiz"));
            (tab4, st_write (quiz_text notes));
            (page_body,
             st_subheader ([0x1f4da%N] ++ u" Download Study Materials"));
            (col1,
             st_download_button ([0x1f4e5%N] ++ u" Download Complete Notes")
               (complete_notes g)
               (u"study_notes_" ++ file_name file ++ u".txt")
               (u"text/plain"));
            (col2,
             st_download_button ([0x1f4cb%N] ++ u" Download Study Guide")
               (study_guide (file_name file) (strip raw) g)
               (u"complete_study_guide_" ++ file_name file ++ u".md")
               (u"text/markdown")) ];
        sent :=
          [ transcription_request file settings
              (resolved_mime (file_name file));
            study_request settings (strip raw) ] |}).
Proof. apply process_complete. Qed.

End RunFacts.

(** ** Further sample runs *)

Lemma client_failure_sends_nothing_witness :
  @app ascii_case_db (λ _, Raise (ValueError (u"Missing key inputs argument!")))
    (u"key") (Some lecture_wav) medium_five start
  = (Ok tt,
     {| rendered :=
          [ (page_body,
             st_error (cross_mark
                         ++ u" Error initializing Gemini client: Missing key inputs argument!"));
            (page_body,
             st_info (u"Please check your API key and try again.")) ];
        sent := [] |}).
Proof.
  exact (@client_failure_sends_nothing ascii_case_db
           (λ _, Raise (ValueError (u"Missing key inputs argument!")))
           (u"key") lecture_wav medium_five
           (ValueError (u"Missing key inputs argument!")) eq_refl eq_refl).
Defined.

Lemma missing_input_sends_nothing_witness :
  let run :=
    @app ascii_case_db (λ _, Ok answering_client) [] (Some lecture_wav)
      medium_five start in
  fst run = Ok tt ∧ sent (snd run) = [].
Proof.
  pose proof (@missing_input_sends_nothing ascii_case_db
                (λ _, Ok answering_client) [] (Some lecture_wav) medium_five
                (or_introl eq_refl)) as H.
  exact (conj (proj1 H) (proj1 (proj2 H))).
Defined.

Lemma blank_transcript_is_failure_witness :
  let client :=
    {| generate_content := λ _,
         Ok {| response_text := Some [160%N; 10%N; 9%N; 0x3000%N] |} |} in
  @app ascii_case_db (λ _, Ok client) (u"key") (Some lecture_wav) medium_five
    start
  = (Ok tt,
     {| rendered :=
          [ (tab1, st_error (u"No transcript generated. Please try again.")) ];
        sent :=
          [ @transcription_request lecture_wav medium_five (u"audio/wav") ] |}).
Proof.
  exact (proj1
           (@blank_transcript_is_failure ascii_case_db
              (λ _, Ok {| generate_content := λ _,
                            Ok {| response_text :=
                                    Some [160%N; 10%N; 9%N; 0x3000%N] |} |})
              (u"key")
              {| generate_content := λ _,
                   Ok {| response_text :=
                           Some [160%N; 10%N; 9%N; 0x3000%N] |} |}
              lecture_wav medium_five [160%N; 10%N; 9%N; 0x3000%N]
              eq_refl eq_refl eq_refl)
           eq_refl).
Defined.

Lemma transcript_shown_is_trimmed_witness :
  u"Hello world." ≠ [] ∧
  ∀ ch, head (u"Hello world.") = Some ch ∨ last (u"Hello world.") = Some ch →
        isspace ch = false.
Proof.
  assert ((tab1, st_text_area (u"Transcript") (u"Hello world.") 400)
            ∈ rendered
                (snd (@app ascii_case_db (λ _, Ok transcribing_client)
                        (u"key") (Some lecture_wav) medium_five start)))
    as Hshown.
  { apply list_elem_of_lookup. exists 1%nat. by vm_compute. }
  pose proof (@transcript_shown_is_trimmed ascii_case_db
                (λ _, Ok transcribing_client) (u"key") (Some lecture_wav)
                medium_five tab1 (u"Transcript") (u"Hello world.") 400
                Hshown) as H.
  exact (conj (proj1 H) (proj1 (proj2 H))).
Defined.

Lemma complete_run_page_witness :
  let run :=
    @app ascii_case_db (λ _, Ok answering_client) (u"key") (Some lecture_wav)
      medium_five start in
  fst run = Ok tt ∧
  length (rendered (snd run)) = 12%nat ∧ length (sent (snd run)) = 2%nat ∧
  rendered (snd run) !! 4%nat = Some (tab2, st_write (u"A short talk.")) ∧
  rendered (snd run) !! 6%nat = Some (tab3, st_write (u"- point one")) ∧
  rendered (snd run) !! 8%nat = Some (tab4, st_write (u"Q1...")).
Proof.
  destruct (@complete_run_page ascii_case_db (λ _, Ok answering_client)
              (u"key") answering_client lecture_wav medium_five
              (u"Hello world.")
              (text [ u"**SUMMARY**"; u"A short talk."; u"**KEY POINTS**";
                      u"- point one"; u"**QUIZ**"; u"Q1..." ])
              eq_refl eq_refl eq_refl ltac:(by vm_compute) eq_refl)
    as (notes & Hnotes & Hrun).
  cbn zeta. rewrite Hrun. rewrite end_to_end_sections in Hnotes.
  injection Hnotes as <-. by split_and!.
Defined.
